(** * DreamGen: the /resim command pipeline of [bot.py]

    A shallow embedding of the request pipeline of the Discord bot in
    [src/bot.py]: the per-user cooldown, the keyword filter, the Stability
    client [call_stability_generate] with its semaphore and its response
    normalisation, the usage log and the command handler [slash_resim].

    Conventions of the embedding.
    - A Python [str] is the [string] of the bytes of its UTF-8 encoding.
      [w in p] is the occurrence of the bytes of [w] in those of [p], which
      for encoded text is the occurrence of the characters (no character's
      encoding occurs inside another's). [len] and the slices [s[:n]] count
      characters, not bytes ([PyStr.code_points], [PyStr.first_chars]).
    - [str.lower] and [str.upper] are the case mappings of the Python
      runtime over all of Unicode; they are not computed here but read from
      the record [env] ([str_lower], [str_upper]), so that what is proved
      holds for them whatever they do to a text. The examples use their
      restriction to ASCII text.
    - Python [float] values ([time.time()], [cfg_scale]) are modelled as exact
      rationals [Q]; rounding of the float operations is not modelled.
    - Values decoded by [json.loads] are the type [json]; a [dict] is a
      [gmap string json].
    - Effects are a trace of [effect]s threaded through a small state and
      exception monad [M]; what the outside world answers (the clock, the
      HTTP exchange, the SQLite statement and its commit) is read from a
      record [env].
    - A call to Discord ([send_message], [defer], [followup.send]) is an
      effect of the trace and is taken to return: a run in which Discord
      refuses a call ends at that effect with the exception of the call. *)

From Stdlib Require Import ZArith QArith Qround Lqa String Ascii List Bool Lia.
From stdpp Require Import base option list gmap strings pretty.
Import ListNotations.

Set Warnings "-register-all".

Local Open Scope Z_scope.
Local Open Scope string_scope.
Local Open Scope list_scope.

(** ** Python strings *)

Module PyStr.

Definition is_upper_ascii (c : ascii) : bool :=
  let n := nat_of_ascii c in (65 <=? n)%nat && (n <=? 90)%nat.

Definition is_lower_ascii (c : ascii) : bool :=
  let n := nat_of_ascii c in (97 <=? n)%nat && (n <=? 122)%nat.

Definition lower_char (c : ascii) : ascii :=
  if is_upper_ascii c then ascii_of_nat (nat_of_ascii c + 32) else c.

Definition upper_char (c : ascii) : ascii :=
  if is_lower_ascii c then ascii_of_nat (nat_of_ascii c - 32) else c.

Fixpoint map_chars (f : ascii -> ascii) (s : string) : string :=
  match s with
  | EmptyString => EmptyString
  | String c s' => String (f c) (map_chars f s')
  end.

(** [s.lower()] and [s.upper()] on a text of ASCII characters: the letters
    A-Z and a-z are mapped, every other character is kept. On other text the
    methods of Python do more; see [str_lower] and [str_upper] of [env]. *)
Definition ascii_lower (s : string) : string := map_chars lower_char s.
Definition ascii_upper (s : string) : string := map_chars upper_char s.

(** [p.startswith(w)]. *)
Fixpoint startswith (w p : string) : bool :=
  match w, p with
  | EmptyString, _ => true
  | String a w', String b p' => Ascii.eqb a b && startswith w' p'
  | String _ _, EmptyString => false
  end.

(** [w in p] on strings: [w] occurs in [p] as a contiguous substring. *)
Fixpoint contains (w p : string) : bool :=
  startswith w p
  || match p with
     | EmptyString => false
     | String _ p' => contains w p'
     end.

(** The relation that [contains] decides. *)
Definition substring_of (w p : string) : Prop :=
  exists a b, p = a +:+ w +:+ b.




End PyStr.

(** ** Values decoded from JSON, and the Python operations used on them *)

(** What [json.loads] returns: [None], [bool], [int], [float], [str], [list]
    and [dict] (string keys). *)
Inductive json : Type :=
  | JNull
  | JBool (b : bool)
  | JInt (n : Z)
  | JFloat (q : Q)
  | JStr (s : string)
  | JArr (l : list json)
  | JObj (m : gmap string json).

(** The exception classes this module can see. [Exception] is the class the
    client raises itself (lines 134 and 154); the others are raised by the
    interpreter or by a library. *)
Inductive exn_class : Type :=
  | Exception
  | AttributeError
  | TypeError
  | KeyError
  | JSONDecodeError
  | TransportError
  | DatabaseError.

(** An exception object: its class and [str(e)]. *)
Record exn : Type := Raise_ { exn_cls : exn_class; exn_str : string }.

(** A pure computation that may raise. *)

Definition result (A : Type) : Type := exn + A.

Global Instance result_ret : MRet result := λ A a, inr a.

Global Instance result_bind : MBind result := λ A B k r,
  match r with
  | inl e => inl e
  | inr a => k a
  end.

Module Py.

(** Truth value of an object ([if x], [x or y], [not x]). *)
Definition truthy (v : json) : bool :=
  match v with
  | JNull => false
  | JBool b => b
  | JInt n => negb (Z.eqb n 0)
  | JFloat q => negb (Qeq_bool q 0)
  | JStr s => negb (String.eqb s "")
  | JArr l => match l with [] => false | _ :: _ => true end
  | JObj m => negb (Nat.eqb (size m) 0)
  end.

(** [a or b]. *)
Definition or_ (a b : json) : json := if truthy a then a else b.

(** [d.get(k)] on a dict: the value, or [None]. *)
Definition dict_get (m : gmap string json) (k : string) : json :=
  default JNull (m !! k).

(** [type(v).__name__]. *)
Definition type_name (v : json) : string :=
  match v with
  | JNull => "NoneType"
  | JBool _ => "bool"
  | JInt _ => "int"
  | JFloat _ => "float"
  | JStr _ => "str"
  | JArr _ => "list"
  | JObj _ => "dict"
  end.

Definition no_attribute (v : json) (attr : string) : exn :=
  Raise_ AttributeError
    ("'" +:+ type_name v +:+ "' object has no attribute '" +:+ attr +:+ "'").

(** [v.get(k)]: only a dict has the method. *)
Definition get (v : json) (k : string) : result json :=
  match v with
  | JObj m => inr (dict_get m k)
  | _ => inl (no_attribute v "get")
  end.

(** [v[0]], evaluated only on a truthy [v]. *)
Definition index0 (v : json) : result json :=
  match v with
  | JArr (x :: _) => inr x
  | JArr [] => inl (Raise_ TypeError "list index out of range")
  | JStr (String c _) => inr (JStr (String c ""))
  | JStr "" => inl (Raise_ TypeError "string index out of range")
  | JObj _ => inl (Raise_ KeyError "0")
  | _ => inl (Raise_ TypeError
                ("'" +:+ type_name v +:+ "' object is not subscriptable"))
  end.

Definition is_list (v : json) : bool :=
  match v with JArr _ => true | _ => false end.

Fixpoint chars (s : string) : list json :=
  match s with
  | "" => []
  | String c s' => JStr (String c "") :: chars s'
  end.

(** The items that [for x in v] visits. *)
Definition iter (v : json) : result (list json) :=
  match v with
  | JArr l => inr l
  | JStr s => inr (chars s)
  | JObj m => inr (JStr <$> (map_to_list m).*1)
  | _ => inl (Raise_ TypeError
                ("'" +:+ type_name v +:+ "' object is not iterable"))
  end.

(** [int(x)] on a float: truncation toward zero. *)
Definition int_of_float (x : Q) : Z := Z.quot (Qnum x) (Zpos (Qden x)).

(** [max(a, b)] and [min(a, b)] on numbers: the first argument unless the
    second is strictly larger (smaller). *)
Definition maxZ (a b : Z) : Z := if Z.ltb a b then b else a.
Definition minZ (a b : Z) : Z := if Z.ltb b a then b else a.
Definition Qltb (a b : Q) : bool := negb (Qle_bool b a).
Definition maxQ (a b : Q) : Q := if Qltb a b then b else a.
Definition minQ (a b : Q) : Q := if Qltb b a then b else a.

End Py.

(** ** Data of the pipeline *)

Definition bytes : Type := list Byte.byte.

(** Module-level configuration (lines 30-39 and 80-83). In the repository
    [BANNED_KEYWORDS] is the empty list, [MAX_CONCURRENT] defaults to 2 and
    [USER_COOLDOWN] to 10. *)
Record config : Type := {
  DEFAULT_MODEL : string;
  MAX_CONCURRENT : Z;
  USER_COOLDOWN : Z;
  BANNED_KEYWORDS : list string
}.

(** One element of the list returned by [call_stability_generate]: the dict
    [{"bytes": ..., "seed": ..., "finish_reason": ...}] of line 155. The seed
    and the finish reason are passed through as the service sent them. *)
Record artifact : Type := {
  art_bytes : bytes;
  art_seed : json;
  art_finish_reason : json
}.

Record user : Type := {
  user_id : Z;
  user_name : string;
  user_discriminator : string
}.

(** The arguments of the slash command (lines 189-197). *)
Record params : Type := {
  prompt : string;
  negative_prompt : option string;
  steps : Z;
  cfg_scale : Q;
  width : Z;
  height : Z;
  samples : Z;
  seed : option Z;
  model : option string
}.

(** A row of the table [usages] (lines 55-69), without the autoincrement id. *)
Record usage_row : Type := {
  row_user_id : string;
  row_username : string;
  row_prompt : string;
  row_negative_prompt : option string;
  row_model : string;
  row_seed : option Z;
  row_width : Z;
  row_height : Z;
  row_steps : Z;
  row_samples : Z;
  row_cfg_scale : Q;
  row_timestamp : string
}.

(** The arguments of [make_result_embed] (line 167). *)
Record embed : Type := {
  emb_prompt : string;
  emb_negative_prompt : option string;
  emb_model : string;
  emb_seed : json;
  emb_width : Z;
  emb_height : Z;
  emb_steps : Z;
  emb_samples : Z;
  emb_cfg_scale : Q
}.

(** The texts sent to the user, by the line that formats them. *)
Inductive message : Type :=
  | MsgCooldown (seconds : Z)       (* line 202 *)
  | MsgBlocked                      (* line 210 *)
  | MsgApiError (err : string)      (* line 234 *)
  | MsgNoResults                    (* line 238 *)
  | MsgFiltered (finish : string)   (* line 245 *)
  | MsgNothingSent.                 (* line 265 *)

(** What the handler does to the outside world, in order. *)
Inductive effect : Type :=
  | SendMessage (m : message)       (* interaction.response.send_message *)
  | Defer                           (* interaction.response.defer *)
  | FollowupSend (m : message)      (* interaction.followup.send(text) *)
  | FollowupFile (e : embed) (filename : string) (img : bytes)
                                    (* interaction.followup.send(embed, file) *)
  | SemAcquire                      (* generation_semaphore.acquire() *)
  | SemRelease                      (* generation_semaphore.release() *)
  | HttpPost (url : string) (payload : gmap string json)
                                    (* session.post(url, json=payload) *)
  | SqlInsert (row : usage_row).    (* cursor.execute(INSERT ...) *)

(** The answer to [session.post] followed by [resp.text()]: a status and a
    body, or an exception of the transport (timeout, connection error). *)
Inductive http_outcome : Type :=
  | HttpResponse (status : Z) (text : string)
  | HttpRaise (e : exn).

(** Everything the handler reads from outside during one request: the
    clock, the answers of the service and of SQLite, and the library
    functions of the runtime that are not computed here. *)
Record env : Type := {
  time_time : Q;                    (* time.time() at line 199 *)
  time_at : Z -> Q;                 (* time.time() at line 250, by idx *)
  utcnow_isoformat : string;        (* line 160 *)
  str_lower : string -> string;     (* str.lower, line 85 *)
  str_upper : string -> string;     (* str.upper, line 243 *)
  session_post : string -> gmap string json -> http_outcome;
  json_loads : string -> result json;
  b64decode : json -> string + bytes;   (* inl: str(e) of the failure *)
  sql_insert : usage_row -> option exn; (* cursor.execute, line 161;
                                           None: the statement succeeds *)
  sql_commit : option exn;          (* conn.commit, line 165 *)
  sql_rollback : bool               (* a failure of SQLite has rolled the
                                       open transaction back, as it does
                                       for some errors (disk full, I/O
                                       error) and not for others *)
}.

(** The mutable globals of the module and the trace of effects so far. The
    connection [conn] of line 52 lives as long as the module: rows that were
    inserted stay in its open transaction until a commit succeeds. *)
Record state : Type := {
  last_request : gmap Z Q;          (* line 48 *)
  usages : list usage_row;          (* the committed rows of the table *)
  pending : list usage_row;         (* inserted on [conn], not committed *)
  trace : list effect
}.

(** ** The state and exception monad *)

Definition M (A : Type) : Type := state -> state * result A.

Global Instance M_ret : MRet M := λ A a s, (s, inr a).

Global Instance M_bind : MBind M := λ A B k m s,
  match m s with
  | (s1, inl e) => (s1, inl e)
  | (s1, inr a) => k a s1
  end.

Module Eff.

Definition raise {A} (e : exn) : M A := λ s, (s, inl e).

(** A pure computation that may raise. *)
Definition lift {A} (r : result A) : M A := λ s, (s, r).

Definition emit (ev : effect) : M unit := λ s,
  ({| last_request := last_request s; usages := usages s;
      pending := pending s; trace := (trace s ++ [ev])%list |}, inr tt).

Definition get_last_request (uid : Z) (dflt : Q) : M Q := λ s,
  (s, inr (default dflt (last_request s !! uid))).

Definition set_last_request (uid : Z) (t : Q) : M unit := λ s,
  ({| last_request := <[uid := t]> (last_request s); usages := usages s;
      pending := pending s; trace := trace s |}, inr tt).

(** The three things that happen to the open transaction of [conn]: a
    statement adds a row to it, a commit writes its rows to the table, a
    rollback drops them. *)
Definition add_pending (row : usage_row) : M unit := λ s,
  ({| last_request := last_request s; usages := usages s;
      pending := (pending s ++ [row])%list; trace := trace s |}, inr tt).

Definition commit_pending : M unit := λ s,
  ({| last_request := last_request s;
      usages := (usages s ++ pending s)%list;
      pending := []; trace := trace s |}, inr tt).

Definition drop_pending : M unit := λ s,
  ({| last_request := last_request s; usages := usages s;
      pending := []; trace := trace s |}, inr tt).

(** [try: body finally: fin]: [fin] runs on every exit of [body]. *)
Definition try_finally {A} (body : M A) (fin : M unit) : M A := λ s,
  match body s with
  | (s1, r) =>
      match fin s1 with
      | (s2, inl e) => (s2, inl e)
      | (s2, inr _) => (s2, r)
      end
  end.

(** The outcome of [body] as a value: the [try ... except Exception as e]
    of lines 223-235 and 259-262 branch on it. *)
Definition attempt {A} (body : M A) : M (result A) := λ s,
  match body s with
  | (s1, r) => (s1, inr r)
  end.

End Eff.

(** ** The functions of [bot.py] *)

Module Bot.

Import PyStr Py Eff.

(** Lines 84-89. The loop over [BANNED_KEYWORDS] returns at the first hit. *)
Fixpoint any_keyword_in (keywords : list string) (p : string) : bool :=
  match keywords with
  | [] => false
  | w :: rest => if contains w p then true else any_keyword_in rest p
  end.

Definition prompt_blocked (cfg : config) (e : env) (prompt : string) : bool :=
  let p := str_lower e prompt in
  any_keyword_in (BANNED_KEYWORDS cfg) p.

(** Truth value of an optional string ([if negative_prompt]). *)
Definition str_truthy (o : option string) : bool :=
  match o with
  | Some s => negb (String.eqb s "")
  | None => false
  end.

(** Truth value of an optional integer ([if seed]). *)
Definition int_truthy (o : option Z) : bool :=
  match o with
  | Some n => negb (Z.eqb n 0)
  | None => false
  end.

Definition text_prompt (text : string) (weight : Q) : json :=
  JObj (<["text" := JStr text]> (<["weight" := JFloat weight]> ∅)).

(** Lines 113-126: the JSON body of the request. *)
Definition build_payload (prompt : string) (negative_prompt : option string)
    (steps : Z) (cfg_scale : Q) (width height samples : Z)
    (seed : option Z) : gmap string json :=
  let text_prompts :=
    ([text_prompt prompt 1]
     ++ (if str_truthy negative_prompt
         then [text_prompt (default "" negative_prompt) (-1)]
         else []))%list in
  let payload : gmap string json :=
    <["text_prompts" := JArr text_prompts]>
    (<["cfg_scale" := JFloat cfg_scale]>
    (<["height" := JInt height]>
    (<["width" := JInt width]>
    (<["samples" := JInt samples]>
    (<["steps" := JInt steps]> ∅))))) in
  if int_truthy seed
  then <["seed" := JInt (default 0 seed)]> payload
  else payload.

(** Lines 139-142: pick the array and unwrap one level of nesting. *)
Definition select_artifacts (data : json) : result json :=
  a ← get data "artifacts";
  if truthy a then inr a else
  r ← get data "result";
  inr (or_ r (JArr [])).

Definition unwrap_nested (artifacts : json) : result json :=
  if truthy artifacts then
    first ← index0 artifacts;
    if is_list first then inr first else inr artifacts
  else inr artifacts.

(** Lines 144-156: the loop over the entries. *)
Fixpoint collect (e : env) (arts : list json) : result (list artifact) :=
  match arts with
  | [] => inr []
  | art :: rest =>
      b1 ← get art "base64";
      b64 ← (if truthy b1 then inr b1 else
             b2 ← get art "b64_json";
             if truthy b2 then inr b2 else get art "b64");
      f1 ← get art "finishReason";
      finish ← (if truthy f1 then inr f1 else
                f2 ← get art "finish_reason";
                if truthy f2 then inr f2 else get art "finishReason");
      seed_val ← get art "seed";
      if negb (truthy b64) then collect e rest
      else
        match b64decode e b64 with
        | inl msg =>
            inl (Raise_ Exception ("Failed to decode base64 image: " +:+ msg))
        | inr img_bytes =>
            results ← collect e rest;
            inr ({| art_bytes := img_bytes; art_seed := seed_val;
                    art_finish_reason := finish |} :: results)
        end
  end.

(** Lines 139-156 as one function of the decoded body. *)
Definition parse_response (e : env) (data : json)
    : result (list artifact) :=
  artifacts ← select_artifacts data;
  artifacts ← unwrap_nested artifacts;
  items ← iter artifacts;
  collect e items.

Definition generation_url (model : string) : string :=
  "https://api.stability.ai/v1/generation/" +:+ model +:+ "/text-to-image".

(** Lines 131-135: post, read the text, check the status, decode. *)
Definition post_and_load (e : env) (url : string)
    (payload : gmap string json) : M json :=
  emit (HttpPost url payload);;
  match session_post e url payload with
  | HttpRaise x => raise x
  | HttpResponse status text =>
      if negb (Z.eqb status 200)
      then raise (Raise_ Exception
             ("Stability API error " +:+ pretty status +:+ ": " +:+ text))
      else lift (json_loads e text)
  end.

(** Lines 91-156. *)
Definition call_stability_generate (e : env) (prompt : string)
    (negative_prompt : option string) (steps : Z) (cfg_scale : Q)
    (width height samples : Z) (seed : option Z) (model : string)
    : M (list artifact) :=
  let url := generation_url model in
  let payload :=
    build_payload prompt negative_prompt steps cfg_scale width height
      samples seed in
  emit SemAcquire;;
  data ← try_finally (post_and_load e url payload) (emit SemRelease);
  lift (parse_response e data).

(** The tuple of values bound to the INSERT statement (line 164). *)
Definition usage_values (e : env) (u : user) (prompt : string)
    (negative_prompt : option string) (model : string) (seed : option Z)
    (width height steps samples : Z) (cfg_scale : Q) : usage_row :=
  let ts := utcnow_isoformat e in
  {| row_user_id := pretty (user_id u);
     row_username := user_name u +:+ "#" +:+ user_discriminator u;
     row_prompt := prompt; row_negative_prompt := negative_prompt;
     row_model := model; row_seed := seed; row_width := width;
     row_height := height; row_steps := steps; row_samples := samples;
     row_cfg_scale := cfg_scale; row_timestamp := ts |}.

(** SQLite raises [x]; before that it may have rolled the transaction
    back. *)
Definition sql_failure {A} (e : env) (x : exn) : M A :=
  (if sql_rollback e then drop_pending else mret tt);;
  raise x.

(** Lines 158-165: the statement on the shared cursor, then the commit. *)
Definition log_usage (e : env) (u : user) (prompt : string)
    (negative_prompt : option string) (model : string) (seed : option Z)
    (width height steps samples : Z) (cfg_scale : Q) : M unit :=
  let row :=
    usage_values e u prompt negative_prompt model seed width height steps
      samples cfg_scale in
  emit (SqlInsert row);;
  match sql_insert e row with
  | Some x => sql_failure e x
  | None =>
      add_pending row;;
      match sql_commit e with
      | Some x => sql_failure e x
      | None => commit_pending
      end
  end.

(** Lines 167-174: the summary shown with an image. *)
Definition make_result_embed (prompt : string)
    (negative_prompt : option string) (model : string) (seed : json)
    (width height steps samples : Z) (cfg_scale : Q) : embed :=
  {| emb_prompt := prompt; emb_negative_prompt := negative_prompt;
     emb_model := model; emb_seed := seed; emb_width := width;
     emb_height := height; emb_steps := steps; emb_samples := samples;
     emb_cfg_scale := cfg_scale |}.

(** Lines 215-221: clamping and the fallback of the sizes. *)
Definition allowed_size (n : Z) : bool :=
  Z.eqb n 256 || Z.eqb n 512 || Z.eqb n 768 || Z.eqb n 1024.

Definition normalize (p : params) : params :=
  {| prompt := prompt p;
     negative_prompt := negative_prompt p;
     steps := maxZ 10 (minZ 80 (steps p));
     cfg_scale := maxQ 1 (minQ 30 (cfg_scale p));
     width := if allowed_size (width p) then width p else 512;
     height := if allowed_size (height p) then height p else 512;
     samples := maxZ 1 (minZ 4 (samples p));
     seed := seed p;
     model := model p |}.

(** Line 243: the tag that the filter test looks at. *)
Definition finish_tag (e : env) (fr : json) : result string :=
  if truthy fr then
    match or_ fr (JStr "") with
    | JStr s => inr (str_upper e s)
    | v => inl (no_attribute v "upper")
    end
  else inr "UNKNOWN".

(** Line 244. *)
Definition filtered (finish : string) : bool :=
  contains "FILTER" finish || contains "CONTENT" finish.

Definition file_name (e : env) (idx : Z) : string :=
  "stability_" +:+ pretty (int_of_float (time_at e idx)) +:+ "_"
  +:+ pretty idx +:+ ".png".

(** Lines 242-257: the delivery loop; the result is [sent_files]. *)
Fixpoint deliver (e : env) (p : params) (model : string) (idx : Z)
    (results : list artifact) (sent_files : list string)
    : M (list string) :=
  match results with
  | [] => mret sent_files
  | r :: rest =>
      finish ← lift (finish_tag e (art_finish_reason r));
      if filtered finish then
        emit (FollowupSend (MsgFiltered finish));;
        deliver e p model (idx + 1) rest sent_files
      else
        let img_bytes := art_bytes r in
        let seed_val := art_seed r in
        let filename := file_name e idx in
        let emb :=
          make_result_embed (prompt p) (negative_prompt p) model seed_val
            (width p) (height p) (steps p) (samples p) (cfg_scale p) in
        emit (FollowupFile emb filename img_bytes);;
        deliver e p model (idx + 1) rest (sent_files ++ [filename])%list
  end.

(** Lines 237-265: what follows a generation call that returned. *)
Definition after_generate (e : env) (u : user) (p : params) (model : string)
    (results : list artifact) : M unit :=
  match results with
  | [] => emit (FollowupSend MsgNoResults)
  | _ :: _ =>
      sent_files ← deliver e p model 1 results [];
      logged ← attempt
        (log_usage e u (prompt p) (negative_prompt p) model (seed p)
           (width p) (height p) (steps p) (samples p) (cfg_scale p));
      match sent_files with
      | [] => emit (FollowupSend MsgNothingSent)
      | _ :: _ => mret tt
      end
  end.

(** Lines 188-265: the handler of the command. *)
Definition slash_resim (cfg : config) (e : env) (u : user) (p0 : params)
    : M unit :=
  let uid := user_id u in
  let now := time_time e in
  last ← get_last_request uid 0;
  if Qltb (now - last) (inject_Z (USER_COOLDOWN cfg)) then
    emit (SendMessage (MsgCooldown
      (int_of_float (inject_Z (USER_COOLDOWN cfg) - (now - last)))))
  else
    set_last_request uid now;;
    let model := default (DEFAULT_MODEL cfg) (model p0) in
    if prompt_blocked cfg e (prompt p0)
       || (str_truthy (negative_prompt p0)
           && prompt_blocked cfg e (default "" (negative_prompt p0)))
    then emit (SendMessage MsgBlocked)
    else
      emit Defer;;
      let p := normalize p0 in
      r ← attempt
        (call_stability_generate e (prompt p) (negative_prompt p) (steps p)
           (cfg_scale p) (width p) (height p) (samples p) (seed p) model);
      match r with
      | inl x => emit (FollowupSend (MsgApiError (exn_str x)))
      | inr results => after_generate e u p model results
      end.

End Bot.

(** ** Observing a run *)

Definition init_state (lr : gmap Z Q) (rows : list usage_row) : state :=
  {| last_request := lr; usages := rows; pending := []; trace := [] |}.

(** The state with further effects appended to its trace. *)
Definition emitted (s : state) (evs : list effect) : state :=
  {| last_request := last_request s; usages := usages s;
     pending := pending s; trace := (trace s ++ evs)%list |}.

Arguments emitted : simpl never.

(** The effects of running [m] from the globals [lr] and [rows]. *)
Definition effects_of {A} (m : M A) (lr : gmap Z Q) (rows : list usage_row)
    : list effect :=
  trace (m (init_state lr rows)).1.

(** The effects that running [m] from any state [s] adds to the trace. *)
Definition effects_from {A} (m : M A) (s : state) : list effect :=
  drop (length (trace s)) (trace (m s).1).

Definition is_sql_insert (ev : effect) : bool :=
  match ev with SqlInsert _ => true | _ => false end.

Definition is_http_post (ev : effect) : bool :=
  match ev with HttpPost _ _ => true | _ => false end.

Definition is_gate_event (ev : effect) : bool :=
  match ev with SemAcquire | SemRelease => true | _ => false end.

(** The rows that the run tried to insert. *)
Definition inserts (evs : list effect) : list usage_row :=
  omap (λ ev, match ev with SqlInsert row => Some row | _ => None end) evs.


(** The value or the exception that the run ends with, and its last state. *)
Definition result_of {A} (m : M A) (lr : gmap Z Q) (rows : list usage_row)
    : result A :=
  (m (init_state lr rows)).2.

Definition final_of {A} (m : M A) (lr : gmap Z Q) (rows : list usage_row)
    : state :=
  (m (init_state lr rows)).1.

(** The same outside world with another behaviour of SQLite: of the
    statement, of the commit, and of the rollback on a failure. *)
Definition with_db (e : env) (f : usage_row -> option exn) (c : option exn)
    (rolled : bool) : env :=
  {| time_time := time_time e; time_at := time_at e;
     utcnow_isoformat := utcnow_isoformat e;
     str_lower := str_lower e; str_upper := str_upper e;
     session_post := session_post e;
     json_loads := json_loads e; b64decode := b64decode e;
     sql_insert := f; sql_commit := c; sql_rollback := rolled |}.

(** The same outside world with another behaviour of the INSERT statement
    alone. *)
Definition with_sql_insert (e : env) (f : usage_row -> option exn) : env :=
  with_db e f (sql_commit e) (sql_rollback e).

(** The finish reason of an artifact is a string or is missing (any falsy
    value), as the docstring of [call_stability_generate] describes it. *)
Definition textual_finish (r : artifact) : bool :=
  match art_finish_reason r with
  | JStr _ => true
  | v => negb (Py.truthy v)
  end.

(** The image data of an entry, under the first of the three field names
    that holds a truthy value (line 146). *)
Definition image_field (m : gmap string json) : json :=
  Py.or_ (Py.or_ (Py.dict_get m "base64") (Py.dict_get m "b64_json"))
         (Py.dict_get m "b64").

(** The finish reason of an entry (line 147). *)
Definition finish_field (m : gmap string json) : json :=
  Py.or_ (Py.or_ (Py.dict_get m "finishReason") (Py.dict_get m "finish_reason"))
         (Py.dict_get m "finishReason").

Definition has_image (art : json) : bool :=
  match art with
  | JObj m => Py.truthy (image_field m)
  | _ => false
  end.

(** Two entries that are the same but for the name of the field that holds
    the image: [base64] in the first, [b64_json] in the second. *)
Inductive same_entry : json -> json -> Prop :=
  | same_entry_refl art : same_entry art art
  | same_entry_renamed m img :
      m !! "base64" = None -> m !! "b64_json" = None ->
      same_entry (JObj (<["base64" := img]> m)) (JObj (<["b64_json" := img]> m)).

(** The exceptions of lines 134 and 154. *)
Definition upstream_error (status : Z) (text : string) : exn :=
  Raise_ Exception ("Stability API error " +:+ pretty status +:+ ": " +:+ text).

Definition decode_error (msg : string) : exn :=
  Raise_ Exception ("Failed to decode base64 image: " +:+ msg).

(** The artifact that an entry with image data decodes to. *)
Definition artifact_of (e : env) (m : gmap string json) : result artifact :=
  match b64decode e (image_field m) with
  | inl msg => inl (decode_error msg)
  | inr img =>
      inr {| art_bytes := img; art_seed := Py.dict_get m "seed";
             art_finish_reason := finish_field m |}
  end.

(** The entry has image data that does not decode, and the position of the
    first such entry. *)
Definition decode_fails (e : env) (art : json) : bool :=
  match art with
  | JObj m =>
      Py.truthy (image_field m)
      && match b64decode e (image_field m) with
         | inl _ => true
         | inr _ => false
         end
  | _ => false
  end.

Fixpoint first_decode_failure (e : env) (arts : list json) : option nat :=
  match arts with
  | [] => None
  | art :: rest =>
      if decode_fails e art then Some 0%nat
      else S <$> first_decode_failure e rest
  end.

(** The same request with another seed. *)
Definition with_seed (p : params) (sd : option Z) : params :=
  {| prompt := prompt p; negative_prompt := negative_prompt p;
     steps := steps p; cfg_scale := cfg_scale p; width := width p;
     height := height p; samples := samples p; seed := sd;
     model := model p |}.

(** The service sent the finish reason of the entry as a string, or sent
    none. *)
Definition entry_textual (art : json) : bool :=
  match art with
  | JObj m =>
      match finish_field m with
      | JStr _ => true
      | v => negb (Py.truthy v)
      end
  | _ => true
  end.

(** The state after line 204 has recorded the time of the request. *)
Definition stamped (s : state) (uid : Z) (now : Q) : state :=
  {| last_request := <[uid := now]> (last_request s); usages := usages s;
     pending := pending s; trace := trace s |}.

(** What [log_usage] does to the table and to the open transaction that
    holds the rows [open]: the rows that reach the table (all that are
    pending, and with them the new row, when the statement and the commit
    both succeed), and the rows that stay pending. *)
Definition written_rows (e : env) (row : usage_row) (open : list usage_row)
    : list usage_row :=
  match sql_insert e row, sql_commit e with
  | None, None => open ++ [row]
  | _, _ => []
  end.

Definition left_pending (e : env) (row : usage_row) (open : list usage_row)
    : list usage_row :=
  match sql_insert e row, sql_commit e with
  | None, None => []
  | Some _, _ => if sql_rollback e then [] else open
  | None, Some _ => if sql_rollback e then [] else open ++ [row]
  end.

(** The state after lines 161-165 have run for [row]. *)
Definition recorded (e : env) (row : usage_row) (s : state) : state :=
  {| last_request := last_request s;
     usages := usages s ++ written_rows e row (pending s);
     pending := left_pending e row (pending s);
     trace := trace s |}.

(** The tag that line 243 computes for an artifact with a textual finish
    reason, and the test of line 244 on it. *)
Definition tag_of (e : env) (r : artifact) : string :=
  match Bot.finish_tag e (art_finish_reason r) with
  | inr t => t
  | inl _ => "UNKNOWN"
  end.

Definition is_filtered (e : env) (r : artifact) : bool :=
  Bot.filtered (tag_of e r).


(** The artifacts up to the first whose finish reason is not textual, and
    that artifact: the loop of line 242 reaches it and no further. *)
Fixpoint served (results : list artifact) : list artifact :=
  match results with
  | [] => []
  | r :: rest => if textual_finish r then r :: served rest else []
  end.

Fixpoint unreadable (results : list artifact) : option artifact :=
  match results with
  | [] => None
  | r :: rest => if textual_finish r then unreadable rest else Some r
  end.

(** Case-insensitive occurrence: [w] occurs in [p] once both are put in
    lower case by [str.lower]. *)
Definition ci_substring_of (e : env) (w p : string) : Prop :=
  PyStr.substring_of (str_lower e w) (str_lower e p).

(** What the delivery loop sends for the artifact at position [idx]: the
    notice when it is filtered, the image with its summary otherwise. *)
Definition artifact_event (e : env) (p : params) (model : string) (idx : Z)
    (r : artifact) : effect :=
  if is_filtered e r then FollowupSend (MsgFiltered (tag_of e r))
  else FollowupFile
         (Bot.make_result_embed (prompt p) (negative_prompt p) model
            (art_seed r) (width p) (height p) (steps p) (samples p)
            (cfg_scale p))
         (Bot.file_name e idx) (art_bytes r).

Fixpoint delivery_events (e : env) (p : params) (model : string) (idx : Z)
    (results : list artifact) : list effect :=
  match results with
  | [] => []
  | r :: rest =>
      artifact_event e p model idx r
      :: delivery_events e p model (idx + 1) rest
  end.

Fixpoint sent_names (e : env) (idx : Z) (results : list artifact)
    : list string :=
  match results with
  | [] => []
  | r :: rest =>
      (if is_filtered e r then [] else [Bot.file_name e idx])
      ++ sent_names e (idx + 1) rest
  end.

(** Replies after the acknowledgement, and with them the insert: the only
    effects that follow a generation call. *)
Definition is_reply (ev : effect) : bool :=
  match ev with
  | FollowupSend _ | FollowupFile _ _ _ => true
  | _ => false
  end.

Definition reply_or_log (ev : effect) : bool :=
  is_reply ev || is_sql_insert ev.

(** The insert fails with [x] and no observer of the run can tell: a failure
    is surfaced on some channel when the effects of the run differ from
    those of the same run with an insert that succeeds. *)
Definition failure_surfaced (cfg : config) (e : env) (u : user) (p : params)
    (lr : gmap Z Q) (rows : list usage_row) (x : exn) : Prop :=
  effects_of (Bot.slash_resim cfg (with_sql_insert e (λ _, Some x)) u p) lr rows
  <> effects_of (Bot.slash_resim cfg (with_sql_insert e (λ _, None)) u p) lr rows.

Definition is_cooldown_notice (ev : effect) : bool :=
  match ev with SendMessage (MsgCooldown _) => true | _ => false end.

(** The row that the handler logs for the normalised parameters [p]. *)
Definition handler_row (e : env) (u : user) (p : params) (mdl : string)
    : usage_row :=
  Bot.usage_values e u (prompt p) (negative_prompt p) mdl (seed p) (width p)
    (height p) (steps p) (samples p) (cfg_scale p).

Definition closing_notice (names : list string) : list effect :=
  match names with
  | [] => [FollowupSend MsgNothingSent]
  | _ :: _ => []
  end.

(** Line 201: the request falls inside the cooldown window. *)
Definition rejected_by_cooldown (cfg : config) (e : env) (u : user)
    (s : state) : bool :=
  Py.Qltb (time_time e - default 0%Q (last_request s !! user_id u))
          (inject_Z (USER_COOLDOWN cfg)).

Definition rejected_by_filter (cfg : config) (e : env) (p : params) : bool :=
  Bot.prompt_blocked cfg e (prompt p)
  || (Bot.str_truthy (negative_prompt p)
      && Bot.prompt_blocked cfg e (default "" (negative_prompt p))).

Definition remaining_seconds (cfg : config) (e : env) (u : user) (s : state)
    : Z :=
  Py.int_of_float
    (inject_Z (USER_COOLDOWN cfg)
     - (time_time e - default 0%Q (last_request s !! user_id u))).

(** The call that the handler makes (lines 224-232). *)
Definition handler_call (cfg : config) (e : env) (p : params)
    : M (list artifact) :=
  let q := Bot.normalize p in
  Bot.call_stability_generate e (prompt q) (negative_prompt q) (steps q)
    (cfg_scale q) (width q) (height q) (samples q) (seed q)
    (default (DEFAULT_MODEL cfg) (model p)).

Definition handler_post (cfg : config) (p : params) : effect :=
  let q := Bot.normalize p in
  HttpPost (Bot.generation_url (default (DEFAULT_MODEL cfg) (model p)))
    (Bot.build_payload (prompt q) (negative_prompt q) (steps q) (cfg_scale q)
       (width q) (height q) (samples q) (seed q)).

(** ** The semaphore shared by concurrent requests

    Requests run as asyncio tasks on one thread: a task runs until it
    awaits, and the scheduler then resumes any task that can go on. A task
    is the list of effects it still has to perform, and the number of
    permits it holds. [SemAcquire] can be performed only while the semaphore
    has a permit left, otherwise the task stays suspended. *)

Module Gate.

Record task : Type := { held : Z; pending : list effect }.

Record system : Type := { permits : Z; tasks : list task }.

(** [asyncio.Semaphore]: the value after an event, [None] if the task has
    to wait. *)
Definition perform (ev : effect) (value : Z) : option Z :=
  match ev with
  | SemAcquire => if Z.ltb 0 value then Some (value - 1) else None
  | SemRelease => Some (value + 1)
  | _ => Some value
  end.

Definition held_after (ev : effect) (h : Z) : Z :=
  match ev with
  | SemAcquire => h + 1
  | SemRelease => h - 1
  | _ => h
  end.

(** The scheduler resumes task [i] for one effect. *)
Definition step (i : nat) (σ : system) : option system :=
  t ← tasks σ !! i;
  match pending t with
  | [] => None
  | ev :: rest =>
      value ← perform ev (permits σ);
      Some {| permits := value;
              tasks := <[i := {| held := held_after ev (held t);
                                 pending := rest |}]> (tasks σ) |}
  end.

Fixpoint run (schedule : list nat) (σ : system) : option system :=
  match schedule with
  | [] => Some σ
  | i :: rest => σ' ← step i σ; run rest σ'
  end.

(** [generation_semaphore = asyncio.Semaphore(MAX_CONCURRENT)] (line 45) and
    one task per program. *)
Definition start (cfg : config) (programs : list (list effect)) : system :=
  {| permits := MAX_CONCURRENT cfg;
     tasks := (λ prog, {| held := 0; pending := prog |}) <$> programs |}.

(** The tasks that are between their acquire and their release. *)
Definition in_flight (σ : system) : Z :=
  Z.of_nat (length (filter (λ t, 0 < held t) (tasks σ))).

Definition total_held (ts : list task) : Z :=
  foldr (λ t acc, held t + acc) 0 ts.

(** A program uses the gate properly from holding state [h]: it acquires
    only when it holds nothing, posts only while it holds the permit,
    releases only what it holds, and ends holding nothing. *)
Fixpoint bracketed (h : bool) (evs : list effect) : bool :=
  match evs with
  | [] => negb h
  | SemAcquire :: rest => negb h && bracketed true rest
  | SemRelease :: rest => h && bracketed false rest
  | HttpPost _ _ :: rest => h && bracketed h rest
  | _ :: rest => bracketed h rest
  end.

(** The programs of the tasks: the effects of one run of the handler, or of
    one call of the client. *)
Inductive program (cfg : config) : list effect -> Prop :=
  | program_handler e u p lr rows :
      program cfg (effects_of (Bot.slash_resim cfg e u p) lr rows)
  | program_client e pr neg st cs w h sm sd mdl lr rows :
      program cfg
        (effects_of (Bot.call_stability_generate e pr neg st cs w h sm sd mdl)
                    lr rows).

(** A task holds at most one permit and what it still has to do uses the
    gate properly. *)
Definition task_ok (t : task) : Prop :=
  (held t = 0 \/ held t = 1) /\ bracketed (Z.eqb (held t) 1) (pending t) = true.

(** What every step of the scheduler keeps. *)
Definition invariant (limit : Z) (σ : system) : Prop :=
  0 <= permits σ
  /\ permits σ + total_held (tasks σ) = limit
  /\ Forall task_ok (tasks σ).

End Gate.

(** ** A reference base64 decoder

    After [binascii.a2b_base64] in its default mode, as [base64.b64decode]
    calls it: characters outside the alphabet are skipped, a complete
    padding ends the input, and leftover bits are an error. It only serves
    to instantiate [b64decode] in the examples below. *)

Module Base64.

Definition sextet (c : ascii) : option N :=
  let n := N_of_ascii c in
  if ((65 <=? n) && (n <=? 90))%N then Some (n - 65)%N
  else if ((97 <=? n) && (n <=? 122))%N then Some (n - 71)%N
  else if ((48 <=? n) && (n <=? 57))%N then Some (n + 4)%N
  else if (n =? 43)%N then Some 62%N
  else if (n =? 47)%N then Some 63%N
  else None.

Definition out_byte (n : N) : Byte.byte :=
  byte_of_ascii (ascii_of_N (n mod 256)).

Fixpoint a2b (s : string) (quad_pos leftchar pads : N) (out : bytes)
    : string + bytes :=
  match s with
  | "" =>
      if (quad_pos =? 0)%N then inr out
      else if (quad_pos =? 1)%N then
        inl ("Invalid base64-encoded string: number of data characters ("
             +:+ pretty (N.of_nat (length out) / 3 * 4 + 1)%N
             +:+ ") cannot be 1 more than a multiple of 4")
      else inl "Incorrect padding"
  | String c s' =>
      if Ascii.eqb c "="%char then
        if ((2 <=? quad_pos) && (4 <=? quad_pos + (pads + 1)))%N then inr out
        else a2b s' quad_pos leftchar
               (if (2 <=? quad_pos)%N then (pads + 1)%N else pads) out
      else
        match sextet c with
        | None => a2b s' quad_pos leftchar pads out
        | Some v =>
            if (quad_pos =? 0)%N then a2b s' 1%N v 0%N out
            else if (quad_pos =? 1)%N then
              a2b s' 2%N (N.land v 15) 0%N
                (out ++ [out_byte (N.lor (N.shiftl leftchar 2)
                                         (N.shiftr v 4))])%list
            else if (quad_pos =? 2)%N then
              a2b s' 3%N (N.land v 3) 0%N
                (out ++ [out_byte (N.lor (N.shiftl leftchar 4)
                                         (N.shiftr v 2))])%list
            else
              a2b s' 0%N 0%N 0%N
                (out ++ [out_byte (N.lor (N.shiftl leftchar 6) v)])%list
        end
  end.

Fixpoint all_ascii (s : string) : bool :=
  match s with
  | "" => true
  | String c s' => (N_of_ascii c <? 128)%N && all_ascii s'
  end.

Definition b64decode_ref (v : json) : string + bytes :=
  match v with
  | JStr s =>
      if all_ascii s then a2b s 0%N 0%N 0%N []
      else inl "string argument should contain only ASCII characters"
  | _ =>
      inl ("argument should be a bytes-like object or ASCII string, not '"
           +:+ Py.type_name v +:+ "'")
  end.

End Base64.

(** ** Further descriptions *)

Definition is_obj (v : json) : bool :=
  match v with JObj _ => true | _ => false end.



(** Something is shown to the user. *)
Definition is_user_message (ev : effect) : bool :=
  match ev with
  | SendMessage _ | FollowupSend _ | FollowupFile _ _ _ => true
  | _ => false
  end.

(** Every task has performed all its effects. *)
Definition all_finished (σ : Gate.system) : bool :=
  forallb (λ t, match Gate.pending t with [] => true | _ :: _ => false end)
          (Gate.tasks σ).

(** The keys that [build_payload] always writes. *)
Definition payload_keys : list string :=
  ["text_prompts"; "cfg_scale"; "height"; "width"; "samples"; "steps"].

(** ** Concrete inputs for the examples *)

Module Examples.

(** The configuration of the repository with its defaults. *)
Definition cfg : config :=
  {| DEFAULT_MODEL := "stable-diffusion-xl-1024-v1-0"; MAX_CONCURRENT := 2;
     USER_COOLDOWN := 10; BANNED_KEYWORDS := [] |}.

(** An outside world: the clock reads [now], the service answers [answer],
    its text decodes to [body], the insert behaves as [db] says and the
    commit succeeds. The texts of the examples are ASCII, and on them the
    case mappings are the ASCII ones. *)
Definition world (now : Q) (answer : http_outcome) (body : result json)
    (db : option exn) : env :=
  {| time_time := now; time_at := λ _, now;
     utcnow_isoformat := "2024-05-01T12:00:00+00:00";
     str_lower := PyStr.ascii_lower; str_upper := PyStr.ascii_upper;
     session_post := λ _ _, answer; json_loads := λ _, body;
     b64decode := Base64.b64decode_ref; sql_insert := λ _, db;
     sql_commit := None; sql_rollback := false |}.

Definition ada : user :=
  {| user_id := 7; user_name := "ada"; user_discriminator := "0001" |}.

Definition fox : params :=
  {| prompt := "a red fox"; negative_prompt := None; steps := 30;
     cfg_scale := 7; width := 512; height := 512; samples := 1;
     seed := None; model := None |}.

(** The user [ada] made a request at time 1000. *)
Definition after_first_request : state :=
  init_state (<[7 := 1000%Q]> ∅) [].

(** An entry of the artifacts array: image data under [field], a finish
    reason and a seed. *)
Definition entry (field image finish : string) : json :=
  JObj (<[field := JStr image]>
       (<["finishReason" := JStr finish]> (<["seed" := JInt 5]> ∅))).

Definition body_of (artifacts : json) : json :=
  JObj (<["artifacts" := artifacts]> ∅).

Definition ok_answer : http_outcome := HttpResponse 200 "{...}".

(** A response with one delivered and one filtered artifact, and one with
    only filtered artifacts. *)
Definition mixed_body : json :=
  body_of (JArr [entry "base64" "QUJD" "SUCCESS";
                 entry "b64_json" "QQ==" "CONTENT_FILTERED"]).

Definition filtered_body : json :=
  body_of (JArr [entry "base64" "QUJD" "content_filtered";
                 entry "base64" "QQ==" "Filter"]).

(** An entry whose image data decodes, and one whose data has a wrong
    padding. *)
Definition good_entry : json := entry "base64" "QUJD" "SUCCESS".
Definition bad_entry : json := entry "base64" "QQ" "SUCCESS".

(** A world in which the service answers 200 and the text decodes to
    [body]. *)
Definition answering (body : json) : env :=
  world 1000 ok_answer (inr body) None.

(** A block-list as an administrator may fill it in. *)
Definition cfg_with (keywords : list string) : config :=
  {| DEFAULT_MODEL := DEFAULT_MODEL cfg; MAX_CONCURRENT := MAX_CONCURRENT cfg;
     USER_COOLDOWN := USER_COOLDOWN cfg; BANNED_KEYWORDS := keywords |}.

End Examples.

(** * Facts *)

(** ** Strings *)

Module PyStrFacts.

Import PyStr.

Lemma startswith_spec w p :
  startswith w p = true <-> exists b, p = w +:+ b.
Proof.
  revert p. induction w as [|a w IH]; intros p; simpl.
  - split; [intros _; exists p; reflexivity | reflexivity].
  - destruct p as [|b p]; simpl.
    + split; [discriminate | intros [r Hr]; discriminate].
    + rewrite andb_true_iff, Ascii.eqb_eq, IH. split.
      * intros [-> [r ->]]. exists r. reflexivity.
      * intros [r Hr]. injection Hr as -> ->. split; [reflexivity | eauto].
Qed.

Lemma contains_spec w p : contains w p = true <-> substring_of w p.
Proof.
  unfold substring_of. induction p as [|c p IH].
  - simpl. rewrite orb_false_r, startswith_spec. split.
    + intros [b Hb]. exists "", b. exact Hb.
    + intros [a [b Hab]]. destruct a; simpl in Hab; [eauto | discriminate].
  - cbn [contains]. rewrite orb_true_iff, startswith_spec, IH. split.
    + intros [[b Hb] | [a [b Hab]]].
      * exists "", b. exact Hb.
      * exists (String c a), b. simpl. rewrite Hab. reflexivity.
    + intros [a [b Hab]]. destruct a as [|c' a]; simpl in Hab.
      * left. eauto.
      * right. injection Hab as _ ->. eauto.
Qed.

Lemma contains_empty_r w : contains w "" = true -> w = "".
Proof.
  rewrite contains_spec. intros [a [b Hab]].
  destruct a; simpl in Hab; [| discriminate].
  destruct w; [reflexivity | discriminate].
Qed.

Lemma contains_empty_l p : contains "" p = true.
Proof. destruct p; reflexivity. Qed.

End PyStrFacts.

(** ** Numbers *)

Module PyFacts.

Import Py.

Lemma Qltb_lt a b : Qltb a b = true <-> (a < b)%Q.
Proof.
  unfold Qltb. rewrite negb_true_iff. split.
  - intros H. apply Qnot_le_lt. intros Hle.
    apply Qle_bool_iff in Hle. congruence.
  - intros H. destruct (Qle_bool b a) eqn:E; [| reflexivity].
    apply Qle_bool_iff in E. exfalso. revert E. apply Qlt_not_le, H.
Qed.

Lemma Qltb_ge a b : Qltb a b = false <-> (b <= a)%Q.
Proof.
  unfold Qltb. rewrite negb_false_iff. apply Qle_bool_iff.
Qed.

Lemma maxZ_spec a b : maxZ a b = Z.max a b.
Proof. unfold maxZ. destruct (Z.ltb_spec a b); lia. Qed.

Lemma minZ_spec a b : minZ a b = Z.min a b.
Proof. unfold minZ. destruct (Z.ltb_spec b a); lia. Qed.

(** Truncation of a non-negative rational is its floor. *)
Lemma int_of_float_floor x : (0 <= x)%Q -> int_of_float x = Qfloor x.
Proof.
  destruct x as [n d]. unfold Qle, int_of_float, Qfloor. simpl.
  intros H. apply Z.quot_div_nonneg; lia.
Qed.

End PyFacts.

(** ** Runs of the monadic code *)

Module RunFacts.

Import Eff Bot.

(** Two descriptions of one state: compare the traces up to the nesting of
    the appends. *)
Ltac same_state :=
  unfold emitted, recorded, stamped, emit, mret, M_ret; simpl;
  rewrite <- ?app_assoc; simpl; reflexivity.

Lemma emitted_nil s : emitted s [] = s.
Proof. destruct s. unfold emitted. simpl. rewrite app_nil_r. reflexivity. Qed.

Lemma emitted_app s a b : emitted (emitted s a) b = emitted s (a ++ b).
Proof. unfold emitted. simpl. rewrite app_assoc. reflexivity. Qed.

Lemma emit_run ev s : emit ev s = (emitted s [ev], inr tt).
Proof. reflexivity. Qed.

Lemma trace_emitted s evs : trace (emitted s evs) = trace s ++ evs.
Proof. reflexivity. Qed.

Lemma last_request_emitted s evs : last_request (emitted s evs) = last_request s.
Proof. reflexivity. Qed.

Lemma usages_emitted s evs : usages (emitted s evs) = usages s.
Proof. reflexivity. Qed.


(** The effects of a run whose trace is known. *)
Lemma effects_from_run {A} (m : M A) s evs :
  trace (m s).1 = trace s ++ evs -> effects_from m s = evs.
Proof. unfold effects_from. intros ->. apply drop_app_length. Qed.

(** One call of the client: the permit is taken, the request is posted and
    the permit is given back, whether the body returns or raises; the
    outcome does not depend on the globals. *)
Lemma call_run e pr neg st cs w h sm sd mdl s :
  call_stability_generate e pr neg st cs w h sm sd mdl s
  = (emitted s [SemAcquire;
                HttpPost (generation_url mdl)
                         (build_payload pr neg st cs w h sm sd);
                SemRelease],
     result_of (call_stability_generate e pr neg st cs w h sm sd mdl) ∅ []).
Proof.
  unfold result_of, call_stability_generate, post_and_load, try_finally,
    raise, lift, emit, mbind, M_bind.
  destruct (session_post e _ _) as [status text | x]; simpl.
  - destruct (negb (status =? 200)%Z); simpl.
    + same_state.
    + destruct (json_loads e text) as [x | data]; simpl; same_state.
  - same_state.
Qed.

Lemma bind_run {A B} (m : M A) (k : A -> M B) s :
  (m ≫= k) s
  = match m s with
    | (s1, inl x) => (s1, inl x)
    | (s1, inr a) => k a s1
    end.
Proof. reflexivity. Qed.

Lemma finish_tag_textual e r :
  textual_finish r = true ->
  finish_tag e (art_finish_reason r) = inr (tag_of e r).
Proof.
  unfold textual_finish, tag_of, finish_tag, Py.or_.
  destruct (art_finish_reason r) as [| b | n | q | t | l | m]; simpl;
    intros H;
    repeat match goal with
           | |- context [if ?c then _ else _] => destruct c eqn:?
           end;
    simpl in *; try reflexivity; try discriminate.
Qed.

(** Line 243 raises exactly on a finish reason that is truthy and is not a
    string: it has no method [upper]. *)
Lemma finish_tag_untextual e r :
  textual_finish r = false ->
  finish_tag e (art_finish_reason r)
  = inl (Py.no_attribute (art_finish_reason r) "upper").
Proof.
  unfold textual_finish, finish_tag, Py.or_.
  destruct (art_finish_reason r) as [| b | n | q | t | l | m]; simpl;
    intros H;
    repeat match goal with
           | |- context [if ?c then _ else _] => destruct c eqn:?
           end;
    simpl in *; try reflexivity; try discriminate.
Qed.

Lemma served_textual results :
  Forall (λ r, textual_finish r = true) results ->
  served results = results /\ unreadable results = None.
Proof.
  induction 1 as [| r rest Hr _ [IH1 IH2]]; [split; reflexivity |].
  simpl. rewrite Hr, IH1, IH2. split; reflexivity.
Qed.

Lemma unreadable_None results :
  unreadable results = None <-> Forall (λ r, textual_finish r = true) results.
Proof.
  split; [| intros H; apply served_textual, H].
  induction results as [| r rest IH]; simpl; [constructor |].
  destruct (textual_finish r) eqn:Hr; [| discriminate].
  intros H. constructor; [exact Hr | apply IH, H].
Qed.



(** The delivery loop: one effect for each artifact up to the first whose
    finish reason is not textual, where line 243 raises; the names of the
    files that were sent when the loop comes to its end. *)
Lemma deliver_served e p mdl results :
  forall idx sent s,
    deliver e p mdl idx results sent s
    = (emitted s (delivery_events e p mdl idx (served results)),
       match unreadable results with
       | None => inr (sent ++ sent_names e idx results)
       | Some r => inl (Py.no_attribute (art_finish_reason r) "upper")
       end).
Proof.
  induction results as [| r rest IH]; intros idx sent s.
  - simpl. rewrite emitted_nil, app_nil_r. reflexivity.
  - cbn [deliver served unreadable]. rewrite bind_run. unfold lift at 1.
    destruct (textual_finish r) eqn:Hr.
    + rewrite (finish_tag_textual e r Hr).
      cbn [delivery_events sent_names]. unfold artifact_event, is_filtered.
      destruct (filtered (tag_of e r)); rewrite bind_run, emit_run, IH, emitted_app.
      * reflexivity.
      * destruct (unreadable rest); [reflexivity |].
        rewrite <- app_assoc. reflexivity.
    + rewrite (finish_tag_untextual e r Hr). simpl. rewrite emitted_nil.
      reflexivity.
Qed.

(** The delivery loop on artifacts with textual finish reasons: one effect
    per artifact, in order, and the names of the files that were sent. *)
Lemma deliver_run e p mdl results :
  Forall (λ r, textual_finish r = true) results ->
  forall idx sent s,
    deliver e p mdl idx results sent s
    = (emitted s (delivery_events e p mdl idx results),
       inr (sent ++ sent_names e idx results)).
Proof.
  intros Htext idx sent s. rewrite deliver_served.
  destruct (served_textual results Htext) as [-> ->]. reflexivity.
Qed.

Lemma replies_no_insert evs : forallb is_reply evs = true -> inserts evs = [].
Proof.
  induction evs as [| ev evs IH]; simpl; [reflexivity |].
  rewrite andb_true_iff. intros [Hev Hall].
  destruct ev; try discriminate; simpl; apply IH, Hall.
Qed.

Lemma replies_reply_or_log evs :
  forallb is_reply evs = true -> forallb reply_or_log evs = true.
Proof.
  induction evs as [| ev evs IH]; simpl; [reflexivity |].
  rewrite !andb_true_iff. intros [Hev Hall]. split; [| apply IH, Hall].
  unfold reply_or_log. rewrite Hev. reflexivity.
Qed.

Lemma inserts_app a b : inserts (a ++ b) = inserts a ++ inserts b.
Proof. apply omap_app. Qed.

Lemma delivery_events_replies e p mdl results :
  forall idx, forallb is_reply (delivery_events e p mdl idx results) = true.
Proof.
  induction results as [| r rest IH]; intros idx; simpl; [reflexivity |].
  rewrite IH, andb_true_r. unfold artifact_event.
  destruct (is_filtered e r); reflexivity.
Qed.

(** Whatever the artifacts are, the loop only replies to the user. *)
Lemma deliver_shape e p mdl results :
  forall idx sent s, exists evs r,
    deliver e p mdl idx results sent s = (emitted s evs, r)
    /\ forallb is_reply evs = true.
Proof.
  intros idx sent s. rewrite deliver_served. eexists _, _.
  split; [reflexivity | apply delivery_events_replies].
Qed.

(** Lines 161-165: the statement is executed; the row reaches the table
    when the statement and the commit succeed, and the exception of the
    first of the two that fails is raised. *)
Lemma log_usage_run e u pr neg mdl sd w h st sm cs s :
  let row := usage_values e u pr neg mdl sd w h st sm cs in
  log_usage e u pr neg mdl sd w h st sm cs s
  = (recorded e row (emitted s [SqlInsert row]),
     match sql_insert e row, sql_commit e with
     | Some x, _ => inl x
     | None, Some x => inl x
     | None, None => inr tt
     end).
Proof.
  intros row. unfold log_usage. fold row. rewrite bind_run, emit_run.
  unfold recorded, written_rows, left_pending, sql_failure, add_pending,
    commit_pending, drop_pending, raise.
  destruct (sql_insert e row) as [x |].
  - rewrite bind_run. destruct (sql_rollback e); simpl;
      rewrite app_nil_r; reflexivity.
  - rewrite bind_run. cbn [fst snd].
    destruct (sql_commit e) as [x |]; [| reflexivity].
    rewrite bind_run. destruct (sql_rollback e); simpl;
      rewrite app_nil_r; reflexivity.
Qed.

Lemma after_generate_nil e u p mdl s :
  after_generate e u p mdl [] s = (emitted s [FollowupSend MsgNoResults], inr tt).
Proof. reflexivity. Qed.

(** Lines 241-265 on a non-empty list of artifacts with textual finish
    reasons: the loop, one insert, and the closing notice when no file was
    sent. *)
Lemma after_generate_run e u p mdl results s :
  results <> [] ->
  Forall (λ r, textual_finish r = true) results ->
  let row := handler_row e u p mdl in
  let evs := delivery_events e p mdl 1 results ++ [SqlInsert row]
             ++ closing_notice (sent_names e 1 results) in
  after_generate e u p mdl results s
  = (recorded e row (emitted s evs), inr tt).
Proof.
  intros Hne Htext row evs. subst evs.
  destruct results as [| r rest]; [congruence |].
  unfold after_generate. rewrite bind_run, (deliver_run _ _ _ _ Htext).
  change ([] ++ sent_names e 1 (r :: rest)) with (sent_names e 1 (r :: rest)).
  generalize (sent_names e 1 (r :: rest)) (delivery_events e p mdl 1 (r :: rest)).
  intros names devs.
  rewrite bind_run. unfold attempt. rewrite log_usage_run.
  fold (handler_row e u p mdl). fold row.
  destruct names; unfold closing_notice; same_state.
Qed.

(** Lines 241-265 on a list that holds an artifact whose finish reason is
    not textual: the loop serves the artifacts before the first such
    artifact and raises there; nothing is logged and no notice closes the
    run. *)
Lemma after_generate_unreadable e u p mdl results r s :
  unreadable results = Some r ->
  after_generate e u p mdl results s
  = (emitted s (delivery_events e p mdl 1 (served results)),
     inl (Py.no_attribute (art_finish_reason r) "upper")).
Proof.
  intros Hr. destruct results as [| a rest]; [discriminate |].
  unfold after_generate. rewrite bind_run, deliver_served, Hr. reflexivity.
Qed.

(** Whatever the artifacts are, what follows the call only replies to the
    user and logs, at most once, and leaves the cooldown table alone. *)
Lemma after_generate_shape e u p mdl results s :
  exists evs s' r,
    after_generate e u p mdl results s = (s', r)
    /\ trace s' = trace s ++ evs
    /\ last_request s' = last_request s
    /\ forallb reply_or_log evs = true
    /\ ((inserts evs = [] /\ usages s' = usages s /\ pending s' = pending s)
        \/ (inserts evs = [handler_row e u p mdl]
            /\ usages s'
               = usages s ++ written_rows e (handler_row e u p mdl) (pending s)
            /\ pending s' = left_pending e (handler_row e u p mdl) (pending s))).
Proof.
  destruct results as [| a rest].
  - exists [FollowupSend MsgNoResults]. eexists _, _.
    rewrite after_generate_nil. repeat split. left. repeat split.
  - destruct (unreadable (a :: rest)) as [r |] eqn:Hr.
    + rewrite (after_generate_unreadable _ _ _ _ _ _ _ Hr).
      eexists _, _, _. split; [reflexivity |]. repeat split.
      * apply replies_reply_or_log, delivery_events_replies.
      * left. split; [| split; reflexivity].
        apply replies_no_insert, delivery_events_replies.
    + apply unreadable_None in Hr.
      assert (Hne : a :: rest <> []) by discriminate.
      rewrite (after_generate_run e u p mdl _ s Hne Hr).
      set (row := handler_row e u p mdl).
      set (dev := delivery_events e p mdl 1 (a :: rest)).
      assert (Hdev : forallb is_reply dev = true)
        by apply delivery_events_replies.
      eexists _, _, _. split; [reflexivity |]. repeat split.
      * rewrite forallb_app, (replies_reply_or_log _ Hdev).
        destruct (sent_names e 1 (a :: rest)); reflexivity.
      * right. split; [| split; reflexivity].
        rewrite inserts_app, (replies_no_insert _ Hdev).
        destruct (sent_names e 1 (a :: rest)); reflexivity.
Qed.

Lemma slash_resim_cooldown cfg e u p s :
  rejected_by_cooldown cfg e u s = true ->
  slash_resim cfg e u p s
  = (emitted s [SendMessage (MsgCooldown (remaining_seconds cfg e u s))],
     inr tt).
Proof.
  unfold rejected_by_cooldown, remaining_seconds, slash_resim. intros H.
  rewrite bind_run. unfold get_last_request. rewrite H. reflexivity.
Qed.

Lemma slash_resim_blocked cfg e u p s :
  rejected_by_cooldown cfg e u s = false ->
  rejected_by_filter cfg e p = true ->
  slash_resim cfg e u p s
  = (emitted (stamped s (user_id u) (time_time e)) [SendMessage MsgBlocked],
     inr tt).
Proof.
  unfold rejected_by_cooldown, rejected_by_filter, slash_resim. intros H1 H2.
  rewrite bind_run. unfold get_last_request. rewrite H1.
  rewrite bind_run. unfold set_last_request. rewrite H2. reflexivity.
Qed.

Lemma slash_resim_passed cfg e u p s :
  rejected_by_cooldown cfg e u s = false ->
  rejected_by_filter cfg e p = false ->
  let s1 := emitted (stamped s (user_id u) (time_time e))
              [Defer; SemAcquire; handler_post cfg p; SemRelease] in
  slash_resim cfg e u p s
  = match result_of (handler_call cfg e p) ∅ [] with
    | inl x => (emitted s1 [FollowupSend (MsgApiError (exn_str x))], inr tt)
    | inr results =>
        after_generate e u (normalize p)
          (default (DEFAULT_MODEL cfg) (model p)) results s1
    end.
Proof.
  intros H1 H2 s1. unfold rejected_by_cooldown in H1.
  unfold rejected_by_filter in H2. unfold slash_resim.
  rewrite bind_run. unfold get_last_request. rewrite H1.
  rewrite bind_run. unfold set_last_request. rewrite H2.
  rewrite bind_run, emit_run, bind_run. unfold attempt.
  rewrite call_run. fold (handler_call cfg e p).
  rewrite emitted_app. fold (handler_post cfg p).
  change (emitted ?a ([Defer] ++ ?l)) with (emitted a (Defer :: l)).
  fold (stamped s (user_id u) (time_time e)). fold s1.
  destruct (result_of (handler_call cfg e p) ∅ []) as [x | results].
  - rewrite emit_run. reflexivity.
  - reflexivity.
Qed.

(** Every run of the handler has one of three shapes. *)
Lemma slash_resim_shape cfg e u p s :
  let row := handler_row e u (normalize p)
               (default (DEFAULT_MODEL cfg) (model p)) in
  exists evs s' r,
    slash_resim cfg e u p s = (s', r)
    /\ trace s' = trace s ++ evs
    /\ ((rejected_by_cooldown cfg e u s = true
         /\ evs = [SendMessage (MsgCooldown (remaining_seconds cfg e u s))]
         /\ last_request s' = last_request s
         /\ usages s' = usages s /\ pending s' = pending s)
        \/ (rejected_by_cooldown cfg e u s = false
            /\ last_request s' = <[user_id u := time_time e]> (last_request s)
            /\ ((rejected_by_filter cfg e p = true
                 /\ evs = [SendMessage MsgBlocked]
                 /\ usages s' = usages s /\ pending s' = pending s)
                \/ (rejected_by_filter cfg e p = false
                    /\ exists tail,
                         evs = [Defer; SemAcquire; handler_post cfg p; SemRelease]
                               ++ tail
                         /\ forallb reply_or_log tail = true
                         /\ ((inserts tail = [] /\ usages s' = usages s
                              /\ pending s' = pending s)
                             \/ (inserts tail = [row]
                                 /\ usages s'
                                    = usages s ++ written_rows e row (pending s)
                                 /\ pending s'
                                    = left_pending e row (pending s))))))).
Proof.
  intros row.
  destruct (rejected_by_cooldown cfg e u s) eqn:Hcd.
  - rewrite (slash_resim_cooldown _ _ _ _ _ Hcd).
    eexists _, _, _. split; [reflexivity |]. split; [reflexivity |].
    left. repeat split.
  - destruct (rejected_by_filter cfg e p) eqn:Hf.
    + rewrite (slash_resim_blocked _ _ _ _ _ Hcd Hf).
      eexists _, _, _. split; [reflexivity |]. split; [reflexivity |].
      right. repeat split. left. repeat split.
    + rewrite (slash_resim_passed _ _ _ _ _ Hcd Hf).
      destruct (result_of (handler_call cfg e p) ∅ []) as [x | results].
      * eexists _, _, _. split; [reflexivity |]. split.
        { simpl. rewrite <- app_assoc. reflexivity. }
        right. repeat split. right. split; [reflexivity |].
        eexists. split; [reflexivity |]. split; [reflexivity |].
        left. repeat split.
      * match goal with
        | |- context [after_generate ?a ?b ?c ?d ?r ?st] =>
            destruct (after_generate_shape a b c d r st)
              as (tail & s' & res & Hrun & Htr & Hlr & Htail & Hins)
        end.
        rewrite Hrun.
        exists ([Defer; SemAcquire; handler_post cfg p; SemRelease] ++ tail), s', res.
        split; [reflexivity |]. split.
        { rewrite Htr. simpl. rewrite <- app_assoc. reflexivity. }
        right. split; [reflexivity |]. split; [exact Hlr |].
        right. split; [reflexivity |]. exists tail.
        split; [reflexivity |]. split; [exact Htail | exact Hins].
Qed.

End RunFacts.

(** * The properties of the pipeline *)

Import PyStr Py Eff Bot PyStrFacts PyFacts RunFacts.

Lemma reply_is_no_cooldown_notice evs :
  forallb reply_or_log evs = true -> existsb is_cooldown_notice evs = false.
Proof.
  induction evs as [| ev evs IH]; simpl; [reflexivity |].
  rewrite andb_true_iff. intros [Hev Hall]. rewrite (IH Hall), orb_false_r.
  destruct ev; try reflexivity; discriminate.
Qed.

(** ** The cooldown (lines 198-204) *)

(** C1, as amended. A request of a user that arrives with
    [now - last < USER_COOLDOWN] is rejected: the only effect is the message
    with the remaining wait, which is the integer part (floor) of
    [USER_COOLDOWN - (now - last)], a number that is non-negative and less
    than one second below the real remaining time; the stored time of the
    last request is not changed. A request that arrives when the window has
    elapsed is not rejected by the cooldown and [now] is stored as the time
    of the last request. *)
Theorem cooldown_gate cfg e u p s :
  let uid := user_id u in
  let now := time_time e in
  let last := default 0%Q (last_request s !! uid) in
  let left := (inject_Z (USER_COOLDOWN cfg) - (now - last))%Q in
  let run := slash_resim cfg e u p s in
  ((now - last < inject_Z (USER_COOLDOWN cfg))%Q ->
     run = (emitted s [SendMessage (MsgCooldown (Qfloor left))], inr tt)
     /\ last_request run.1 = last_request s
     /\ 0 <= Qfloor left
     /\ (inject_Z (Qfloor left) <= left)%Q
     /\ (left < inject_Z (Qfloor left + 1))%Q)
  /\ (~ (now - last < inject_Z (USER_COOLDOWN cfg))%Q ->
      last_request run.1 = <[uid := now]> (last_request s)
      /\ exists evs, trace run.1 = trace s ++ evs
                     /\ existsb is_cooldown_notice evs = false).
Proof.
  intros uid now last left run. split.
  - intros Hlt.
    assert (Hcd : rejected_by_cooldown cfg e u s = true)
      by (apply Qltb_lt; exact Hlt).
    assert (Hpos : (0 <= left)%Q) by (subst left; lra).
    subst run. rewrite (slash_resim_cooldown _ _ _ _ _ Hcd).
    unfold remaining_seconds. fold uid now last left.
    rewrite (int_of_float_floor _ Hpos).
    split; [reflexivity |]. split; [reflexivity |]. split.
    + change 0 with (Qfloor 0). apply Qfloor_resp_le, Hpos.
    + split; [apply Qfloor_le | apply Qlt_floor].
  - intros Hge.
    assert (Hcd : rejected_by_cooldown cfg e u s = false).
    { destruct (rejected_by_cooldown cfg e u s) eqn:E; [| reflexivity].
      exfalso. apply Hge, Qltb_lt, E. }
    destruct (slash_resim_shape cfg e u p s)
      as (evs & s' & r & Hrun & Htr & [(Hc & _) | (_ & Hlr & Hshape)]);
      [congruence |].
    subst run. rewrite Hrun. simpl. split; [exact Hlr |].
    exists evs. split; [exact Htr |].
    destruct Hshape as [(_ & -> & _) | (_ & tail & -> & Htail & _)];
      [reflexivity |].
    simpl. apply reply_is_no_cooldown_notice, Htail.
Qed.

(** The two cases of [cooldown_gate] on a user whose last request was at
    time 1000, with the window of 10 seconds: at 1004 the request is
    rejected with 6 seconds to wait, at 1010 it is let through. *)
Lemma cooldown_gate_witness :
  slash_resim Examples.cfg
    (Examples.world 1004 Examples.ok_answer (inr JNull) None)
    Examples.ada Examples.fox Examples.after_first_request
  = (emitted Examples.after_first_request [SendMessage (MsgCooldown 6)], inr tt)
  /\ last_request
       (slash_resim Examples.cfg
          (Examples.world 1010 Examples.ok_answer (inr JNull) None)
          Examples.ada Examples.fox Examples.after_first_request).1
     = <[7 := 1010%Q]> (last_request Examples.after_first_request).
Proof.
  split.
  - refine (proj1 (proj1 (cooldown_gate Examples.cfg
      (Examples.world 1004 Examples.ok_answer (inr JNull) None)
      Examples.ada Examples.fox Examples.after_first_request) _)).
    vm_compute. reflexivity.
  - refine (proj1 (proj2 (cooldown_gate Examples.cfg
      (Examples.world 1010 Examples.ok_answer (inr JNull) None)
      Examples.ada Examples.fox Examples.after_first_request) _)).
    vm_compute. intros H. discriminate H.
Defined.

(** C1 as the specification words it fails half a second before the window
    ends: with the last request at 1000, the window of 10 seconds and the
    clock at 1009.5, the request is rejected and the user is told to wait 0
    seconds, which is neither the ceiling of the remaining 0.5 seconds (1)
    nor strictly positive. *)
Lemma cooldown_ceiling_counterexample :
  let e := Examples.world (2019 # 2) Examples.ok_answer (inr JNull) None in
  let s := Examples.after_first_request in
  let left := (inject_Z (USER_COOLDOWN Examples.cfg)
               - (time_time e - default 0%Q (last_request s !! user_id Examples.ada)))%Q in
  (time_time e - default 0%Q (last_request s !! user_id Examples.ada)
   < inject_Z (USER_COOLDOWN Examples.cfg))%Q
  /\ slash_resim Examples.cfg e Examples.ada Examples.fox s
     = (emitted s [SendMessage (MsgCooldown 0)], inr tt)
  /\ Qceiling left = 1
  /\ ~ (exists n, slash_resim Examples.cfg e Examples.ada Examples.fox s
                   = (emitted s [SendMessage (MsgCooldown n)], inr tt)
                  /\ n = Qceiling left /\ 0 < n).
Proof.
  intros e s left. split; [vm_compute; reflexivity |].
  split; [vm_compute; reflexivity |]. split; [vm_compute; reflexivity |].
  intros (n & Hrun & _ & Hpos).
  vm_compute in Hrun. injection Hrun as Hn. lia.
Qed.

(** ** The keyword filter (lines 84-89 and 209-211) *)

Lemma any_keyword_in_spec keywords p :
  any_keyword_in keywords p = true
  <-> exists w, w ∈ keywords /\ substring_of w p.
Proof.
  induction keywords as [| k rest IH]; simpl.
  - split; [discriminate |]. intros (w & Hw & _). inversion Hw.
  - destruct (contains k p) eqn:Hk.
    + split; [| reflexivity]. intros _. exists k. split; [left |].
      apply contains_spec, Hk.
    + rewrite IH. split.
      * intros (w & Hw & Hsub). exists w. split; [right; exact Hw | exact Hsub].
      * intros (w & Hw & Hsub). apply elem_of_cons in Hw as [-> | Hw].
        -- apply contains_spec in Hsub. congruence.
        -- exists w. split; assumption.
Qed.

(** What the code decides: some keyword, as it is written in the list,
    occurs in the lower-cased text. *)
Lemma prompt_blocked_spec cfg e text :
  prompt_blocked cfg e text = true
  <-> exists w, w ∈ BANNED_KEYWORDS cfg /\ substring_of w (str_lower e text).
Proof. apply any_keyword_in_spec. Qed.

(** A term that occurs in the empty text is the empty term, which occurs
    in every text. *)
Lemma prompt_blocked_empty cfg e text :
  str_lower e "" = "" ->
  prompt_blocked cfg e "" = true -> prompt_blocked cfg e text = true.
Proof.
  intros Hlow. rewrite !prompt_blocked_spec, Hlow. intros (w & Hw & Hsub).
  exists w. split; [exact Hw |]. apply contains_spec in Hsub.
  apply contains_empty_r in Hsub as ->. apply contains_spec, contains_empty_l.
Qed.

(** Line 209 skips an empty negative prompt; what would match it matches
    the prompt. *)
Lemma rejected_by_filter_true cfg e p :
  prompt_blocked cfg e (prompt p) = true
  \/ (exists n, negative_prompt p = Some n
                /\ prompt_blocked cfg e n = true
                /\ (n <> "" \/ str_lower e "" = "")) ->
  rejected_by_filter cfg e p = true.
Proof.
  unfold rejected_by_filter. intros [H | (n & Hn & H & Hne)].
  - rewrite H. reflexivity.
  - rewrite Hn. simpl. destruct (String.eqb_spec n "") as [-> | Hn'].
    + destruct Hne as [Hne | Hlow]; [congruence |].
      rewrite (prompt_blocked_empty cfg e _ Hlow H). reflexivity.
    + simpl. rewrite H. apply orb_true_r.
Qed.

(** C5, as amended. [prompt_blocked] is true exactly when some listed term,
    as it is written in the list, occurs in the text that [str.lower] makes
    of the given text, and false when none does. So for a block-list whose
    terms [str.lower] leaves as they are, it is true exactly when some
    listed term occurs in the text as a case-insensitive substring (term and
    text compared after [str.lower]). The handler checks the prompt and
    the negative prompt; a match on either ends the request with a single
    message to the user, without acquiring the semaphore and without any
    HTTP request. (Line 209 skips an empty negative prompt: a term that
    matches it is the empty term, as [str.lower] leaves the empty text
    empty, and matches the prompt.) *)
Theorem keyword_filter cfg text e u p lr rows :
  (prompt_blocked cfg e text = true
   <-> exists w, w ∈ BANNED_KEYWORDS cfg /\ substring_of w (str_lower e text))
  /\ (prompt_blocked cfg e text = false
      <-> forall w, w ∈ BANNED_KEYWORDS cfg ->
                    ~ substring_of w (str_lower e text))
  /\ (Forall (λ w, str_lower e w = w) (BANNED_KEYWORDS cfg) ->
      prompt_blocked cfg e text = true
      <-> exists w, w ∈ BANNED_KEYWORDS cfg /\ ci_substring_of e w text)
  /\ (prompt_blocked cfg e (prompt p) = true
      \/ (exists n, negative_prompt p = Some n
                    /\ prompt_blocked cfg e n = true
                    /\ (n <> "" \/ str_lower e "" = "")) ->
      let evs := effects_of (slash_resim cfg e u p) lr rows in
      (exists m, evs = [SendMessage m])
      /\ existsb is_http_post evs = false
      /\ existsb is_gate_event evs = false
      /\ (rejected_by_cooldown cfg e u (init_state lr rows) = false ->
          evs = [SendMessage MsgBlocked])).
Proof.
  split; [apply prompt_blocked_spec |]. split; [| split].
  - destruct (prompt_blocked cfg e text) eqn:Hb.
    + apply prompt_blocked_spec in Hb as (w & Hw & Hsub).
      split; [discriminate |]. intros Hnone. exfalso. exact (Hnone w Hw Hsub).
    + split; [| reflexivity]. intros _ w Hw Hsub.
      assert (Ht : prompt_blocked cfg e text = true)
        by (apply prompt_blocked_spec; eauto).
      congruence.
  - intros Hlow. rewrite prompt_blocked_spec. unfold ci_substring_of.
    rewrite Forall_forall in Hlow.
    split; intros (w & Hw & Hsub); exists w; (split; [exact Hw |]).
    + rewrite (Hlow w Hw). exact Hsub.
    + rewrite (Hlow w Hw) in Hsub. exact Hsub.
  - intros Hblocked evs. apply rejected_by_filter_true in Hblocked.
    subst evs. unfold effects_of.
    destruct (rejected_by_cooldown cfg e u (init_state lr rows)) eqn:Hcd.
    + rewrite (slash_resim_cooldown _ _ _ _ _ Hcd). simpl.
      repeat split; [eexists; reflexivity | discriminate].
    + rewrite (slash_resim_blocked _ _ _ _ _ Hcd Hblocked). simpl.
      repeat split. eexists; reflexivity.
Qed.

(** [keyword_filter] on the block-list ["fox"]: the prompt "A Red FOX" is
    blocked, and the request ends with the rejection alone. *)
Lemma keyword_filter_witness :
  let cfg := Examples.cfg_with ["fox"] in
  let e := Examples.world 1000 Examples.ok_answer (inr JNull) None in
  let p := {| prompt := "A Red FOX"; negative_prompt := None; steps := 30;
              cfg_scale := 7; width := 512; height := 512; samples := 1;
              seed := None; model := None |} in
  (prompt_blocked cfg e "A Red FOX" = true
   <-> exists w, w ∈ BANNED_KEYWORDS cfg /\ ci_substring_of e w "A Red FOX")
  /\ effects_of (slash_resim cfg e Examples.ada p) ∅ []
     = [SendMessage MsgBlocked].
Proof.
  intros cfg e p. split.
  - refine (proj1 (proj2 (proj2
      (keyword_filter cfg "A Red FOX" e Examples.ada p ∅ []))) _).
    repeat constructor.
  - refine (proj2 (proj2 (proj2 (proj2 (proj2 (proj2
      (keyword_filter cfg "A Red FOX" e Examples.ada p ∅ []))) _))) _).
    + left. vm_compute. reflexivity.
    + vm_compute. reflexivity.
Defined.

(** C5 as the specification words it fails for a term with a capital
    letter: with the block-list ["Fox"], the term occurs in "a red fox"
    case-insensitively, and [prompt_blocked] is false. *)
Lemma keyword_case_counterexample :
  let cfg := Examples.cfg_with ["Fox"] in
  let e := Examples.world 1000 Examples.ok_answer (inr JNull) None in
  ~ (prompt_blocked cfg e "a red fox" = true
     <-> exists w, w ∈ BANNED_KEYWORDS cfg /\ ci_substring_of e w "a red fox").
Proof.
  intros cfg e [_ H].
  assert (Hblocked : prompt_blocked cfg e "a red fox" = true).
  { apply H. exists "Fox". split; [left |].
    apply contains_spec. vm_compute. reflexivity. }
  vm_compute in Hblocked. discriminate Hblocked.
Qed.

(** ** Normalisation of the parameters (lines 215-221) *)

Lemma clampQ_idem x : maxQ 1 (minQ 30 (maxQ 1 (minQ 30 x))) = maxQ 1 (minQ 30 x).
Proof.
  unfold maxQ, minQ.
  destruct (Qltb x 30) eqn:E1; [destruct (Qltb 1 x) eqn:E2 |];
    simpl; rewrite ?E1, ?E2; reflexivity.
Qed.

Lemma size_idem n :
  (if allowed_size (if allowed_size n then n else 512)
   then if allowed_size n then n else 512 else 512)
  = if allowed_size n then n else 512.
Proof. destruct (allowed_size n) eqn:E; rewrite ?E; reflexivity. Qed.

Lemma normalize_idem p : normalize (normalize p) = normalize p.
Proof.
  unfold normalize. cbn [prompt negative_prompt steps cfg_scale width height
                         samples seed model].
  rewrite clampQ_idem, !size_idem. f_equal; rewrite !maxZ_spec, !minZ_spec; lia.
Qed.

Lemma forallb_elem_of {A} (f : A -> bool) l x :
  forallb f l = true -> x ∈ l -> f x = true.
Proof.
  intros H Hx. apply list_elem_of_In in Hx.
  rewrite forallb_forall in H. apply H, Hx.
Qed.

(** The only request that a run of the handler posts is [handler_post]. *)
Lemma posted_is_handler_post cfg e u p lr rows ev :
  ev ∈ effects_of (slash_resim cfg e u p) lr rows ->
  is_http_post ev = true -> ev = handler_post cfg p.
Proof.
  unfold effects_of. intros Hin Hpost.
  destruct (slash_resim_shape cfg e u p (init_state lr rows))
    as (evs & s' & r & Hrun & Htr & Hshape).
  rewrite Hrun in Hin. simpl in Hin, Htr. rewrite Htr in Hin. clear Hrun Htr.
  destruct Hshape
    as [(_ & -> & _) | (_ & _ & [(_ & -> & _) | (_ & tail & -> & Htail & _)])].
  - apply list_elem_of_singleton in Hin as ->. discriminate.
  - apply list_elem_of_singleton in Hin as ->. discriminate.
  - simpl in Hin. repeat (apply elem_of_cons in Hin as [-> | Hin]);
      try discriminate; [reflexivity |].
    apply (forallb_elem_of _ _ _ Htail) in Hin.
    destruct ev; discriminate.
Qed.

(** The four sizes of line 219. *)
Lemma allowed_size_spec n :
  allowed_size n = true <-> n ∈ [256; 512; 768; 1024].
Proof.
  unfold allowed_size. rewrite !orb_true_iff, !Z.eqb_eq.
  rewrite !elem_of_cons, elem_of_nil. tauto.
Qed.

(** C8. Normalisation clamps and is idempotent. Steps inside [10,80] are
    kept, smaller ones become 10 and larger ones 80; the scale inside
    [1,30] is kept, a smaller one becomes 1 and a larger one 30; samples
    inside [1,4] are kept, smaller ones become 1 and larger ones 4; a width
    or a height among 256, 512, 768 and 1024 is kept and every other one is
    replaced by 512, so a width of 999 becomes 512; the prompt, the
    negative prompt, the seed and the model are not touched. Normalising
    what is already normalised changes nothing. The request that the
    handler posts is built from the normalised values. *)
Theorem normalize_idempotent cfg e u p lr rows :
  normalize (normalize p) = normalize p
  /\ ((10 <= steps p <= 80 -> steps (normalize p) = steps p)
      /\ (steps p < 10 -> steps (normalize p) = 10)
      /\ (80 < steps p -> steps (normalize p) = 80))
  /\ (((1 <= cfg_scale p /\ cfg_scale p <= 30)%Q ->
       (cfg_scale (normalize p) == cfg_scale p)%Q)
      /\ ((cfg_scale p < 1)%Q -> cfg_scale (normalize p) = 1%Q)
      /\ ((30 < cfg_scale p)%Q -> cfg_scale (normalize p) = 30%Q))
  /\ ((1 <= samples p <= 4 -> samples (normalize p) = samples p)
      /\ (samples p < 1 -> samples (normalize p) = 1)
      /\ (4 < samples p -> samples (normalize p) = 4))
  /\ ((width p ∈ [256; 512; 768; 1024] -> width (normalize p) = width p)
      /\ (width p ∉ [256; 512; 768; 1024] -> width (normalize p) = 512)
      /\ (width p = 999 -> width (normalize p) = 512))
  /\ ((height p ∈ [256; 512; 768; 1024] -> height (normalize p) = height p)
      /\ (height p ∉ [256; 512; 768; 1024] -> height (normalize p) = 512))
  /\ (prompt (normalize p) = prompt p
      /\ negative_prompt (normalize p) = negative_prompt p
      /\ seed (normalize p) = seed p
      /\ model (normalize p) = model p)
  /\ (forall url payload,
        HttpPost url payload ∈ effects_of (slash_resim cfg e u p) lr rows ->
        payload = build_payload (prompt p) (negative_prompt p)
                    (steps (normalize p)) (cfg_scale (normalize p))
                    (width (normalize p)) (height (normalize p))
                    (samples (normalize p)) (seed p)).
Proof.
  split; [apply normalize_idem |].
  assert (Hsize : forall n,
             (n ∈ [256; 512; 768; 1024] ->
              (if allowed_size n then n else 512) = n)
             /\ (n ∉ [256; 512; 768; 1024] ->
                 (if allowed_size n then n else 512) = 512)).
  { intros n. destruct (allowed_size n) eqn:E.
    - split; [reflexivity |]. intros Hn. exfalso.
      apply Hn, allowed_size_spec, E.
    - split; [| reflexivity]. intros Hn.
      apply allowed_size_spec in Hn. congruence. }
  split.
  { cbn [normalize steps]. rewrite maxZ_spec, minZ_spec.
    repeat split; lia. }
  split.
  { cbn [normalize cfg_scale]. unfold maxQ, minQ. repeat split.
    - intros [H1 H30].
      destruct (Qltb (cfg_scale p) 30) eqn:E1.
      + destruct (Qltb 1 (cfg_scale p)) eqn:E2; [reflexivity |].
        apply Qltb_ge in E2. apply Qle_antisym; assumption.
      + apply Qltb_ge in E1. simpl. apply Qle_antisym; assumption.
    - intros Hlow.
      destruct (Qltb (cfg_scale p) 30) eqn:E1.
      + destruct (Qltb 1 (cfg_scale p)) eqn:E2; [| reflexivity].
        apply Qltb_lt in E2. lra.
      + apply Qltb_ge in E1. lra.
    - intros Hhigh.
      destruct (Qltb (cfg_scale p) 30) eqn:E1; [| reflexivity].
      apply Qltb_lt in E1. lra. }
  split.
  { cbn [normalize samples]. rewrite maxZ_spec, minZ_spec.
    repeat split; lia. }
  split.
  { cbn [normalize width]. destruct (Hsize (width p)) as [Hin Hout].
    split; [exact Hin |]. split; [exact Hout |].
    intros H999. apply Hout. rewrite H999.
    rewrite !elem_of_cons, elem_of_nil. lia. }
  split.
  { cbn [normalize height]. apply Hsize. }
  split; [repeat split |].
  intros url payload Hin.
  apply posted_is_handler_post in Hin; [| reflexivity].
  unfold handler_post in Hin. injection Hin as _ ->. reflexivity.
Qed.

(** [normalize_idempotent] on a request with width 999, steps 5 and a scale
    of 7: the width becomes 512, the steps 10, the scale stays, and the
    posted body carries the width 512. *)
Lemma normalize_idempotent_witness :
  let p := {| prompt := "a red fox"; negative_prompt := None; steps := 5;
              cfg_scale := 7; width := 999; height := 768; samples := 1;
              seed := None; model := None |} in
  let e := Examples.world 1000 Examples.ok_answer (inr JNull) None in
  width (normalize p) = 512
  /\ height (normalize p) = 768
  /\ steps (normalize p) = 10
  /\ (cfg_scale (normalize p) == 7)%Q
  /\ forall url payload,
       HttpPost url payload ∈ effects_of (slash_resim Examples.cfg e Examples.ada p) ∅ [] ->
       payload !! "width" = Some (JInt 512).
Proof.
  intros p e.
  pose proof (normalize_idempotent Examples.cfg e Examples.ada p ∅ [])
    as (_ & (_ & Hs & _) & (Hc & _) & _ & (_ & _ & Hw) & (Hh & _) & _ & Hpost).
  split; [apply Hw; reflexivity |].
  split; [apply Hh; rewrite !elem_of_cons; auto |].
  split; [apply Hs; reflexivity |].
  split; [apply Hc; vm_compute; split; discriminate |].
  intros url payload Hin. rewrite (Hpost url payload Hin). reflexivity.
Defined.

(** ** The seed in the request body (lines 117-126) *)

Lemma build_payload_seed pr neg st cs w h sm sd :
  build_payload pr neg st cs w h sm sd !! "seed"
  = if int_truthy sd then Some (JInt (default 0 sd)) else None.
Proof.
  unfold build_payload. destruct (int_truthy sd).
  - apply lookup_insert_eq.
  - reflexivity.
Qed.

(** C10. With the seed 0 the request body is the one built without a seed,
    so the request that the handler posts and the whole call of the client
    are the same; the body has a field [seed] exactly for a seed that is
    given and is not 0, and then it holds that seed. *)
Theorem seed_zero_omitted cfg p e pr neg st cs w h sm sd mdl :
  build_payload pr neg st cs w h sm (Some 0)
  = build_payload pr neg st cs w h sm None
  /\ handler_post cfg (with_seed p (Some 0)) = handler_post cfg (with_seed p None)
  /\ build_payload pr neg st cs w h sm None !! "seed" = None
  /\ call_stability_generate e pr neg st cs w h sm (Some 0) mdl
     = call_stability_generate e pr neg st cs w h sm None mdl
  /\ (is_Some (build_payload pr neg st cs w h sm sd !! "seed")
      <-> exists n, sd = Some n /\ n <> 0)
  /\ (forall n, sd = Some n -> n <> 0 ->
       build_payload pr neg st cs w h sm sd !! "seed" = Some (JInt n)).
Proof.
  split; [reflexivity |]. split; [reflexivity |].
  split; [reflexivity |]. split; [reflexivity |].
  rewrite build_payload_seed. split.
  - destruct sd as [n |]; simpl.
    + destruct (Z.eqb_spec n 0) as [-> | Hn]; simpl.
      * split; [intros [? ?]; discriminate | intros (? & [= <-] & ?); congruence].
      * split; [intros _; exists n; split; [reflexivity | exact Hn] | eauto].
    + split; [intros [? ?]; discriminate | intros (? & ? & ?); discriminate].
  - intros n -> Hn. simpl. destruct (Z.eqb_spec n 0); [congruence | reflexivity].
Qed.

(** [seed_zero_omitted] on the seed 42: the body carries it. *)
Lemma seed_zero_omitted_witness :
  build_payload "a red fox" None 30 7 512 512 1 (Some 42) !! "seed"
  = Some (JInt 42).
Proof.
  refine (proj2 (proj2 (proj2 (proj2 (proj2
    (seed_zero_omitted Examples.cfg Examples.fox
       (Examples.world 1000 Examples.ok_answer (inr JNull) None)
       "a red fox" None 30 7 512 512 1 (Some 42) "m"))))) 42 _ _).
  - reflexivity.
  - discriminate.
Defined.

(** ** The usage record (lines 223-262) *)

Lemma effects_of_run {A} (m : M A) lr rows s' r evs :
  m (init_state lr rows) = (s', r) -> trace s' = [] ++ evs ->
  effects_of m lr rows = evs.
Proof. unfold effects_of. intros H1 H2. rewrite H1. simpl. exact H2. Qed.

(** A run of the handler from any state either inserts nothing and leaves
    the table and the open transaction alone, or it has called the service,
    got at least one artifact, served them all, and has run lines 161-165
    once for the row of the request. *)
Lemma insert_cases cfg e u p s :
  let run := slash_resim cfg e u p s in
  let evs := effects_from (slash_resim cfg e u p) s in
  let outcome := result_of (handler_call cfg e p) ∅ [] in
  let row := handler_row e u (normalize p)
               (default (DEFAULT_MODEL cfg) (model p)) in
  trace run.1 = trace s ++ evs
  /\ ((inserts evs = []
       /\ usages run.1 = usages s /\ pending run.1 = pending s
       /\ (existsb is_http_post evs = false
           \/ (existsb is_http_post evs = true
               /\ ((exists x, outcome = inl x)
                   \/ outcome = inr []
                   \/ exists results r,
                        outcome = inr results
                        /\ unreadable results = Some r
                        /\ run.2 = inl (no_attribute (art_finish_reason r)
                                          "upper")))))
      \/ (inserts evs = [row]
          /\ existsb is_http_post evs = true
          /\ (exists results,
                outcome = inr results /\ results <> []
                /\ Forall (λ r, textual_finish r = true) results)
          /\ run.2 = inr tt
          /\ usages run.1 = usages s ++ written_rows e row (pending s)
          /\ pending run.1 = left_pending e row (pending s))).
Proof.
  intros run evs outcome row.
  assert (Hfrom : forall st res tail,
             slash_resim cfg e u p s = (st, res) ->
             trace st = trace s ++ tail ->
             trace run.1 = trace s ++ tail /\ evs = tail).
  { intros st res tail Hrun Htr.
    assert (Htr' : trace run.1 = trace s ++ tail)
      by (unfold run; rewrite Hrun; exact Htr).
    split; [exact Htr' |]. apply effects_from_run, Htr'. }
  destruct (rejected_by_cooldown cfg e u s) eqn:Hcd;
    [| destruct (rejected_by_filter cfg e p) eqn:Hf].
  - pose proof (slash_resim_cooldown cfg e u p s Hcd) as Hrun.
    destruct (Hfrom _ _ _ Hrun eq_refl) as [Htr ->].
    split; [exact Htr |]. left. unfold run. rewrite Hrun.
    repeat split. left. reflexivity.
  - pose proof (slash_resim_blocked cfg e u p s Hcd Hf) as Hrun.
    destruct (Hfrom _ _ _ Hrun eq_refl) as [Htr ->].
    split; [exact Htr |]. left. unfold run. rewrite Hrun.
    repeat split. left. reflexivity.
  - pose proof (slash_resim_passed cfg e u p s Hcd Hf) as Hrun.
    cbv zeta in Hrun. fold outcome in Hrun.
    set (s1 := emitted (stamped s (user_id u) (time_time e))
                 [Defer; SemAcquire; handler_post cfg p; SemRelease]) in Hrun.
    set (q := normalize p) in *.
    set (mdl := default (DEFAULT_MODEL cfg) (model p)) in *.
    destruct outcome as [x | results] eqn:Hout.
    + assert (Htr0 : trace (emitted s1 [FollowupSend (MsgApiError (exn_str x))])
                     = trace s ++ [Defer; SemAcquire; handler_post cfg p;
                                   SemRelease;
                                   FollowupSend (MsgApiError (exn_str x))])
        by (simpl; rewrite <- app_assoc; reflexivity).
      destruct (Hfrom _ _ _ Hrun Htr0) as [Htr ->].
      split; [exact Htr |]. left. unfold run. rewrite Hrun.
      repeat split. right. split; [reflexivity |]. left. eauto.
    + destruct results as [| a rest].
      * rewrite after_generate_nil in Hrun.
        assert (Htr0 : trace (emitted s1 [FollowupSend MsgNoResults])
                       = trace s ++ [Defer; SemAcquire; handler_post cfg p;
                                     SemRelease; FollowupSend MsgNoResults])
          by (simpl; rewrite <- app_assoc; reflexivity).
        destruct (Hfrom _ _ _ Hrun Htr0) as [Htr ->].
        split; [exact Htr |]. left. unfold run. rewrite Hrun.
        repeat split. right. split; [reflexivity |]. right. left. reflexivity.
      * destruct (unreadable (a :: rest)) as [r |] eqn:Hr.
        -- rewrite (after_generate_unreadable _ _ _ _ _ _ _ Hr) in Hrun.
           set (dev := delivery_events e q mdl 1 (served (a :: rest))) in Hrun.
           assert (Hdev : forallb is_reply dev = true)
             by apply delivery_events_replies.
           assert (Htr0 : trace (emitted s1 dev)
                          = trace s ++ [Defer; SemAcquire; handler_post cfg p;
                                        SemRelease] ++ dev)
             by (simpl; rewrite <- app_assoc; reflexivity).
           destruct (Hfrom _ _ _ Hrun Htr0) as [Htr ->].
           split; [exact Htr |]. left. unfold run. rewrite Hrun.
           split; [apply (replies_no_insert _ Hdev) |].
           split; [reflexivity |]. split; [reflexivity |].
           right. split; [reflexivity |]. right. right.
           exists (a :: rest), r. repeat split. exact Hr.
        -- apply unreadable_None in Hr.
           assert (Hne : a :: rest <> []) by discriminate.
           rewrite (after_generate_run e u q mdl _ s1 Hne Hr) in Hrun.
           fold row in Hrun.
           set (dev := delivery_events e q mdl 1 (a :: rest)) in Hrun.
           set (closing := closing_notice (sent_names e 1 (a :: rest))) in Hrun.
           assert (Hdev : forallb is_reply dev = true)
             by apply delivery_events_replies.
           assert (Htr0 : trace (recorded e row
                                   (emitted s1 (dev ++ [SqlInsert row] ++ closing)))
                          = trace s ++ [Defer; SemAcquire; handler_post cfg p;
                                        SemRelease]
                                     ++ dev ++ [SqlInsert row] ++ closing)
             by (simpl; rewrite <- app_assoc; reflexivity).
           destruct (Hfrom _ _ _ Hrun Htr0) as [Htr ->].
           split; [exact Htr |]. right. unfold run. rewrite Hrun.
           split.
           { change (inserts (dev ++ [SqlInsert row] ++ closing) = [row]).
             rewrite inserts_app, (replies_no_insert _ Hdev).
             unfold closing. destruct (sent_names e 1 (a :: rest)); reflexivity. }
           split; [reflexivity |].
           split; [exists (a :: rest); repeat split; assumption |].
           repeat split.
Qed.




(** ** The delivery loop (lines 242-265) *)













(** ** A failing insert (lines 259-262) *)

Lemma collect_with_db e f c b arts :
  collect (with_db e f c b) arts = collect e arts.
Proof.
  induction arts as [| a rest IH]; [reflexivity |].
  cbn [collect]. rewrite IH. reflexivity.
Qed.

Lemma parse_response_with_db e f c b data :
  parse_response (with_db e f c b) data = parse_response e data.
Proof.
  unfold parse_response.
  destruct (select_artifacts data) as [x | a]; [reflexivity |]. simpl.
  destruct (unwrap_nested a) as [x | a']; [reflexivity |]. simpl.
  destruct (iter a') as [x | items]; [reflexivity |]. simpl.
  apply collect_with_db.
Qed.

Lemma handler_call_with_db cfg e f c b p :
  result_of (handler_call cfg (with_db e f c b) p) ∅ []
  = result_of (handler_call cfg e p) ∅ [].
Proof.
  unfold result_of, handler_call, call_stability_generate, post_and_load,
    try_finally, raise, lift, emit, mbind, M_bind. simpl.
  destruct (session_post e _ _) as [status text | x]; [| reflexivity].
  destruct (negb (status =? 200)%Z); [reflexivity |].
  destruct (json_loads e text) as [x | data]; [reflexivity |]. simpl.
  rewrite parse_response_with_db. reflexivity.
Qed.

Lemma deliver_with_db e f c b p mdl results :
  forall idx sent s,
    deliver (with_db e f c b) p mdl idx results sent s
    = deliver e p mdl idx results sent s.
Proof.
  induction results as [| a rest IH]; intros idx sent s; [reflexivity |].
  cbn [deliver]. rewrite !bind_run. unfold lift.
  change (finish_tag (with_db e f c b) (art_finish_reason a))
    with (finish_tag e (art_finish_reason a)).
  destruct (finish_tag e (art_finish_reason a)) as [x | finish]; [reflexivity |].
  destruct (filtered finish); rewrite !bind_run, !emit_run; apply IH.
Qed.

(** What follows the call differs between two behaviours of SQLite in the
    table and in the open transaction only. *)
Lemma after_generate_with_db e f c b f' c' b' u p mdl results s :
  let r1 := after_generate (with_db e f c b) u p mdl results s in
  let r2 := after_generate (with_db e f' c' b') u p mdl results s in
  trace r1.1 = trace r2.1 /\ last_request r1.1 = last_request r2.1
  /\ r1.2 = r2.2.
Proof.
  destruct results as [| a rest]; [repeat split |].
  unfold after_generate. rewrite !bind_run, !deliver_with_db.
  destruct (deliver e p mdl 1 (a :: rest) [] s) as [s1 [x | names]];
    [repeat split |].
  rewrite !bind_run. unfold attempt. rewrite !log_usage_run.
  destruct names; repeat split.
Qed.

Lemma slash_resim_with_db cfg e f c b f' c' b' u p s :
  let r1 := slash_resim cfg (with_db e f c b) u p s in
  let r2 := slash_resim cfg (with_db e f' c' b') u p s in
  trace r1.1 = trace r2.1 /\ last_request r1.1 = last_request r2.1
  /\ r1.2 = r2.2.
Proof.
  destruct (rejected_by_cooldown cfg e u s) eqn:Hcd;
    [| destruct (rejected_by_filter cfg e p) eqn:Hf].
  - rewrite (slash_resim_cooldown cfg (with_db e f c b) u p s Hcd),
      (slash_resim_cooldown cfg (with_db e f' c' b') u p s Hcd).
    repeat split.
  - rewrite (slash_resim_blocked cfg (with_db e f c b) u p s Hcd Hf),
      (slash_resim_blocked cfg (with_db e f' c' b') u p s Hcd Hf).
    repeat split.
  - rewrite (slash_resim_passed cfg (with_db e f c b) u p s Hcd Hf),
      (slash_resim_passed cfg (with_db e f' c' b') u p s Hcd Hf).
    rewrite !handler_call_with_db.
    destruct (result_of (handler_call cfg e p) ∅ []) as [x | results];
      [repeat split |].
    apply after_generate_with_db.
Qed.

(** A run in which the statement or the commit fails leaves the table as
    it was. *)
Lemma failed_write_keeps_table cfg e u p s :
  (forall row, is_Some (sql_insert e row)) \/ is_Some (sql_commit e) ->
  usages (slash_resim cfg e u p s).1 = usages s.
Proof.
  intros Hfail.
  destruct (insert_cases cfg e u p s)
    as [_ [(_ & Hus & _) | (_ & _ & _ & _ & Hus & _)]]; [exact Hus |].
  rewrite Hus. unfold written_rows.
  match goal with |- context [sql_insert e ?row] => set (r := row) end.
  destruct (sql_insert e r) as [x |] eqn:Hsql; [apply app_nil_r |].
  destruct (sql_commit e) as [x |] eqn:Hc; [apply app_nil_r |].
  destruct Hfail as [Hall | [x Hx]]; [| discriminate Hx].
  destruct (Hall r) as [x Hx]. congruence.
Qed.

(** C9, as amended. A failure of the insert is never shown to the user and
    never aborts the response: the run with the failing insert has the same
    effects, the same result and the same cooldown table as the run in
    which the insert succeeds, and it leaves the usage table as it was. The
    failure reaches no other channel either: it is dropped. The same holds
    for a failure of the commit, and for any two behaviours of SQLite. *)
Theorem recorder_failure_contained cfg e u p lr rows x :
  let bad := with_sql_insert e (λ _, Some x) in
  let good := with_sql_insert e (λ _, None) in
  effects_of (slash_resim cfg bad u p) lr rows
  = effects_of (slash_resim cfg good u p) lr rows
  /\ result_of (slash_resim cfg bad u p) lr rows
     = result_of (slash_resim cfg good u p) lr rows
  /\ last_request (final_of (slash_resim cfg bad u p) lr rows)
     = last_request (final_of (slash_resim cfg good u p) lr rows)
  /\ usages (final_of (slash_resim cfg bad u p) lr rows) = rows
  /\ ~ failure_surfaced cfg e u p lr rows x
  /\ (forall f c b f' c' b',
        let one := with_db e f c b in
        let other := with_db e f' c' b' in
        effects_of (slash_resim cfg one u p) lr rows
        = effects_of (slash_resim cfg other u p) lr rows
        /\ result_of (slash_resim cfg one u p) lr rows
           = result_of (slash_resim cfg other u p) lr rows
        /\ last_request (final_of (slash_resim cfg one u p) lr rows)
           = last_request (final_of (slash_resim cfg other u p) lr rows))
  /\ (forall f b,
        usages (final_of (slash_resim cfg (with_db e f (Some x) b) u p) lr rows)
        = rows).
Proof.
  intros bad good.
  destruct (slash_resim_with_db cfg e (λ _, Some x) (sql_commit e)
              (sql_rollback e) (λ _, None) (sql_commit e) (sql_rollback e) u p
              (init_state lr rows)) as (Htr & Hlr & Hres).
  split; [exact Htr |]. split; [exact Hres |]. split; [exact Hlr |].
  split.
  { unfold final_of.
    apply (failed_write_keeps_table cfg bad u p (init_state lr rows)).
    left. intros row. exists x. reflexivity. }
  split; [intros H; apply H; exact Htr |].
  split.
  - intros f c b f' c' b' one other.
    destruct (slash_resim_with_db cfg e f c b f' c' b' u p (init_state lr rows))
      as (Htr' & Hlr' & Hres').
    split; [exact Htr' |]. split; [exact Hres' | exact Hlr'].
  - intros f b. unfold final_of.
    apply (failed_write_keeps_table cfg (with_db e f (Some x) b) u p
             (init_state lr rows)).
    right. exists x. reflexivity.
Qed.

(** C9 as the specification words it fails on any request whose insert
    fails: here the service returned two artifacts and the insert raises
    "database is locked"; the insert was attempted, the table is unchanged,
    and the effects of the run are those of the run with a successful
    insert, so the failure is surfaced nowhere. *)
Lemma recorder_failure_silent_counterexample :
  let e := Examples.world 1000 Examples.ok_answer (inr Examples.mixed_body) None in
  let x := Raise_ DatabaseError "database is locked" in
  let bad := with_sql_insert e (λ _, Some x) in
  inserts (effects_of (slash_resim Examples.cfg bad Examples.ada Examples.fox) ∅ [])
  <> []
  /\ usages (final_of (slash_resim Examples.cfg bad Examples.ada Examples.fox) ∅ [])
     = []
  /\ ~ failure_surfaced Examples.cfg e Examples.ada Examples.fox ∅ [] x.
Proof.
  intros e x bad. split; [vm_compute; discriminate |].
  split; [vm_compute; reflexivity |].
  intros H. apply H. vm_compute. reflexivity.
Qed.

(** ** The response of the service (lines 131-156) *)

(** One step of the loop of lines 145-155 on an entry that is a dict. *)
Lemma collect_obj e m rest :
  collect e (JObj m :: rest)
  = if negb (truthy (image_field m)) then collect e rest
    else a ← artifact_of e m; results ← collect e rest; inr (a :: results).
Proof.
  cbn [collect get]. unfold artifact_of, decode_error, image_field, finish_field, or_.
  simpl.
  destruct (truthy (dict_get m "base64")) eqn:E1;
    destruct (truthy (dict_get m "b64_json")) eqn:E2;
    destruct (truthy (dict_get m "finishReason")) eqn:E3;
    destruct (truthy (dict_get m "finish_reason")) eqn:E4;
    simpl; rewrite ?E1, ?E2, ?E3, ?E4; simpl;
    repeat match goal with
           | |- context [truthy ?v] => destruct (truthy v)
           | |- context [b64decode e ?v] => destruct (b64decode e v)
           end; reflexivity.
Qed.

Lemma dict_get_insert_eq (m : gmap string json) k v :
  dict_get (<[k := v]> m) k = v.
Proof. unfold dict_get. rewrite lookup_insert_eq. reflexivity. Qed.

Lemma dict_get_insert_ne (m : gmap string json) k k' v :
  k <> k' -> dict_get (<[k := v]> m) k' = dict_get m k'.
Proof. intros H. unfold dict_get. rewrite lookup_insert_ne by exact H. reflexivity. Qed.

Lemma dict_get_None (m : gmap string json) k : m !! k = None -> dict_get m k = JNull.
Proof. unfold dict_get. intros ->. reflexivity. Qed.

(** Reads of a dict that was just written, key by key. *)
Ltac dict_lookups :=
  repeat first [ rewrite dict_get_insert_eq
               | rewrite dict_get_insert_ne by discriminate ].

Lemma select_artifacts_insert d v :
  select_artifacts (JObj (<["artifacts" := v]> d))
  = if truthy v then inr v else inr (or_ (dict_get d "result") (JArr [])).
Proof.
  unfold select_artifacts. cbn [get]. simpl.
  dict_lookups. destruct (truthy v); reflexivity.
Qed.

(** The body whose field [artifacts] is the non-empty array [arts]. *)
Lemma parse_response_artifacts e d arts :
  arts <> [] ->
  parse_response e (JObj (<["artifacts" := JArr arts]> d))
  = match arts with
    | JArr inner :: _ => collect e inner
    | _ => collect e arts
    end.
Proof.
  intros Hne. unfold parse_response. rewrite select_artifacts_insert.
  destruct arts as [| a rest]; [congruence |]. simpl.
  destruct a; reflexivity.
Qed.

(** The same for a body that holds the array in the field [result]. *)
Lemma parse_response_result e d arts :
  arts <> [] -> truthy (dict_get d "artifacts") = false ->
  parse_response e (JObj (<["result" := JArr arts]> d))
  = match arts with
    | JArr inner :: _ => collect e inner
    | _ => collect e arts
    end.
Proof.
  intros Hne Hart. unfold parse_response, select_artifacts. cbn [get]. simpl.
  dict_lookups. rewrite Hart. simpl.
  destruct arts as [| a rest]; [congruence |]. simpl.
  destruct a; reflexivity.
Qed.

Lemma renamed_image_field m img :
  m !! "base64" = None -> m !! "b64_json" = None ->
  image_field (<["base64" := img]> m) = image_field (<["b64_json" := img]> m).
Proof.
  intros H1 H2. unfold image_field. dict_lookups.
  rewrite (dict_get_None _ _ H1), (dict_get_None _ _ H2).
  unfold or_. simpl. destruct (truthy img) eqn:E; rewrite ?E; reflexivity.
Qed.

Lemma renamed_artifact_of e m img :
  m !! "base64" = None -> m !! "b64_json" = None ->
  artifact_of e (<["base64" := img]> m) = artifact_of e (<["b64_json" := img]> m).
Proof.
  intros H1 H2. unfold artifact_of, finish_field.
  rewrite (renamed_image_field m img H1 H2). dict_lookups. reflexivity.
Qed.

Lemma collect_same_entry e arts arts' :
  Forall2 same_entry arts arts' -> collect e arts = collect e arts'.
Proof.
  induction 1 as [| a a' rest rest' Ha _ IH]; [reflexivity |].
  destruct Ha as [a | m img H1 H2].
  - destruct a; try reflexivity. rewrite !collect_obj, IH. reflexivity.
  - rewrite !collect_obj, (renamed_image_field m img H1 H2),
      (renamed_artifact_of e m img H1 H2), IH. reflexivity.
Qed.

(** The loop keeps the order of the entries: its result lists, one by one,
    the artifacts of the entries that have image data. *)
Lemma collect_order e arts :
  forall results,
    collect e arts = inr results ->
    Forall2 (λ art r, exists m, art = JObj m /\ artifact_of e m = inr r)
            (filter (λ art, has_image art = true) arts) results.
Proof.
  induction arts as [| a rest IH]; intros results Hc.
  - injection Hc as <-. constructor.
  - destruct a as [| b | n | q | t | l | m]; try discriminate.
    rewrite collect_obj in Hc. rewrite filter_cons. simpl.
    destruct (truthy (image_field m)) eqn:E; simpl in Hc.
    + rewrite decide_True by reflexivity.
      destruct (artifact_of e m) as [x | r] eqn:Hr; [discriminate |].
      simpl in Hc. destruct (collect e rest) as [x | rs]; [discriminate |].
      injection Hc as <-. constructor; [eauto | apply IH; reflexivity].
    + rewrite decide_False by discriminate. apply IH, Hc.
Qed.

(** When the service sends finish reasons as strings, or sends none, the
    artifacts that the client returns have textual finish reasons. *)
Lemma collect_textual e arts results :
  Forall (λ art, entry_textual art = true) arts ->
  collect e arts = inr results ->
  Forall (λ r, textual_finish r = true) results.
Proof.
  intros Harts Hc. apply collect_order in Hc.
  assert (Hkept : Forall (λ art, entry_textual art = true)
                    (filter (λ art, has_image art = true) arts))
    by (rewrite Forall_forall in Harts; apply Forall_forall; intros x Hx;
        apply list_elem_of_filter in Hx as [_ Hx]; apply Harts, Hx).
  revert Hkept. induction Hc as [| art r kept rs (m & -> & Hr) _ IH];
    intros Hkept; [constructor |].
  apply Forall_cons in Hkept as [Hart Hkept]. constructor; [| apply IH, Hkept].
  unfold artifact_of in Hr. destruct (b64decode e (image_field m)); [discriminate |].
  injection Hr as <-. exact Hart.
Qed.

(** C6, as amended. For every body whose array [artifacts] is not empty,
    the client returns the same result whether the array is flat or nested
    in one more array (and so it does for an array under [result] when
    [artifacts] holds nothing); it returns the same result whether an entry
    holds its image data under [base64] or under [b64_json]; an entry
    without image data is skipped and raises nothing; and the artifacts
    come in the order of the entries that have image data. *)
Theorem response_normalised e d arts arts' m rest :
  (arts <> [] -> (forall x, head arts = Some x -> is_list x = false) ->
   parse_response e (JObj (<["artifacts" := JArr [JArr arts]]> d))
   = parse_response e (JObj (<["artifacts" := JArr arts]> d)))
  /\ (Forall2 same_entry arts arts' ->
      parse_response e (JObj (<["artifacts" := JArr arts]> d))
      = parse_response e (JObj (<["artifacts" := JArr arts']> d)))
  /\ (arts <> [] -> (forall x, head arts = Some x -> is_list x = false) ->
      truthy (dict_get d "artifacts") = false ->
      parse_response e (JObj (<["result" := JArr [JArr arts]]> d))
      = parse_response e (JObj (<["result" := JArr arts]> d)))
  /\ (has_image (JObj m) = false -> collect e (JObj m :: rest) = collect e rest)
  /\ (forall results,
        collect e arts = inr results ->
        Forall2 (λ art r, exists m, art = JObj m /\ artifact_of e m = inr r)
                (filter (λ art, has_image art = true) arts) results).
Proof.
  split; [| split; [| split; [| split]]].
  - intros Hne Hflat.
    rewrite (parse_response_artifacts e d [JArr arts]) by discriminate.
    rewrite (parse_response_artifacts e d arts Hne).
    destruct arts as [| a tl]; [congruence |].
    specialize (Hflat a eq_refl). destruct a; try reflexivity. discriminate.
  - intros Hsame. destruct Hsame as [| a a' tl tl' Ha Htl]; [reflexivity |].
    rewrite !parse_response_artifacts by discriminate.
    assert (Hc : collect e (a :: tl) = collect e (a' :: tl'))
      by (apply collect_same_entry; constructor; assumption).
    destruct Ha as [a | m0 img H1 H2]; [| exact Hc].
    destruct a; try exact Hc. reflexivity.
  - intros Hne Hflat Hart.
    rewrite (parse_response_result e d [JArr arts]) by (discriminate || exact Hart).
    rewrite (parse_response_result e d arts Hne Hart).
    destruct arts as [| a tl]; [congruence |].
    specialize (Hflat a eq_refl). destruct a; try reflexivity. discriminate.
  - intros H. simpl in H. rewrite collect_obj, H. reflexivity.
  - apply collect_order.
Qed.

(** [response_normalised] on two entries: nested or flat, and with the
    image of the first entry under either field name, the client returns
    the same two artifacts. *)
Lemma response_normalised_witness :
  let e := Examples.answering JNull in
  let inner : gmap string json :=
    <["finishReason" := JStr "SUCCESS"]> (<["seed" := JInt 5]> ∅) in
  let a1 := JObj (<["base64" := JStr "QUJD"]> inner) in
  let a1' := JObj (<["b64_json" := JStr "QUJD"]> inner) in
  let a2 := Examples.entry "base64" "QQ==" "SUCCESS" in
  parse_response e (JObj (<["artifacts" := JArr [JArr [a1; a2]]]> ∅))
  = parse_response e (JObj (<["artifacts" := JArr [a1; a2]]> ∅))
  /\ parse_response e (JObj (<["artifacts" := JArr [a1; a2]]> ∅))
     = parse_response e (JObj (<["artifacts" := JArr [a1'; a2]]> ∅)).
Proof.
  intros e inner a1 a1' a2. split.
  - refine (proj1 (response_normalised e ∅ [a1; a2] [a1'; a2] ∅ []) _ _).
    + discriminate.
    + intros x Hx. injection Hx as <-. reflexivity.
  - refine (proj1 (proj2 (response_normalised e ∅ [a1; a2] [a1'; a2] ∅ [])) _).
    constructor.
    + apply same_entry_renamed; reflexivity.
    + constructor; [apply same_entry_refl | constructor].
Defined.

(** C6 as the specification words it fails for an empty array: the flat
    empty array makes the client fall back to the field [result], the
    nested empty array does not. *)
Lemma empty_array_nesting_counterexample :
  let e := Examples.answering JNull in
  let d : gmap string json := <["result" := JArr [Examples.good_entry]]> ∅ in
  parse_response e (JObj (<["artifacts" := JArr [JArr []]]> d)) = inr []
  /\ parse_response e (JObj (<["artifacts" := JArr []]> d))
     = inr [ {| art_bytes := [Byte.x41; Byte.x42; Byte.x43]; art_seed := JInt 5;
                art_finish_reason := JStr "SUCCESS" |} ]
  /\ parse_response e (JObj (<["artifacts" := JArr [JArr []]]> d))
     <> parse_response e (JObj (<["artifacts" := JArr []]> d)).
Proof.
  intros e d. split; [vm_compute; reflexivity |].
  split; [vm_compute; reflexivity |].
  intros H. vm_compute in H. discriminate H.
Qed.

(** The loop on a list whose first part goes through. *)
Lemma collect_app e pre rs :
  collect e pre = inr rs ->
  forall post,
    collect e (pre ++ post) = results ← collect e post; inr (rs ++ results).
Proof.
  revert rs. induction pre as [| a pre IH]; intros rs Hpre post.
  - injection Hpre as <-. simpl. destruct (collect e post); reflexivity.
  - destruct a as [| b | n | q | t | l | m]; try discriminate.
    rewrite <- app_comm_cons, collect_obj. rewrite collect_obj in Hpre.
    destruct (negb (truthy (image_field m))).
    + apply IH, Hpre.
    + destruct (artifact_of e m) as [x | r]; [discriminate |]. simpl in Hpre |- *.
      destruct (collect e pre) as [x | rs']; [discriminate |].
      injection Hpre as <-. rewrite (IH rs' eq_refl post).
      destruct (collect e post); reflexivity.
Qed.

Lemma upstream_is_not_decode status text msg :
  upstream_error status text <> decode_error msg.
Proof. unfold upstream_error, decode_error. intros H. discriminate H. Qed.

(** C7, as amended. A status other than 200 makes the client raise an
    [Exception] whose message holds the status code and the raw body. Image
    data that does not decode makes the client raise an [Exception] whose
    message holds the message of the decoder, and nothing about the position
    of the entry. The two are of the same class and are told apart by the
    text of their message only, which always differs. *)
Theorem client_errors e pr neg st cs w h sm sd mdl status text pre rs m post msg :
  (session_post e (generation_url mdl) (build_payload pr neg st cs w h sm sd)
   = HttpResponse status text ->
   status <> 200 ->
   result_of (call_stability_generate e pr neg st cs w h sm sd mdl) ∅ []
   = inl (upstream_error status text))
  /\ (collect e pre = inr rs -> has_image (JObj m) = true ->
      b64decode e (image_field m) = inl msg ->
      collect e (pre ++ JObj m :: post) = inl (decode_error msg))
  /\ exn_str (upstream_error status text)
     = "Stability API error " +:+ pretty status +:+ ": " +:+ text
  /\ exn_str (decode_error msg) = "Failed to decode base64 image: " +:+ msg
  /\ exn_cls (upstream_error status text) = Exception
  /\ exn_cls (decode_error msg) = Exception
  /\ upstream_error status text <> decode_error msg.
Proof.
  split; [| split].
  - intros Hpost Hstatus.
    unfold result_of, call_stability_generate, post_and_load, try_finally,
      raise, lift, emit, mbind, M_bind. simpl. rewrite Hpost.
    destruct (Z.eqb_spec status 200) as [-> | _]; [congruence | reflexivity].
  - intros Hpre Himg Hdec. rewrite (collect_app e pre rs Hpre), collect_obj.
    simpl in Himg. rewrite Himg. unfold artifact_of. rewrite Hdec. reflexivity.
  - repeat split. apply upstream_is_not_decode.
Qed.

(** [client_errors] on a response with status 400 and on a response whose
    second entry has a wrong padding. *)
Lemma client_errors_witness :
  let e400 := Examples.world 1000 (HttpResponse 400 "bad request") (inr JNull) None in
  let e := Examples.answering JNull in
  result_of (call_stability_generate e400 "a red fox" None 30 7 512 512 1 None "m")
            ∅ []
  = inl (Raise_ Exception "Stability API error 400: bad request")
  /\ collect e [Examples.good_entry; Examples.bad_entry; Examples.good_entry]
     = inl (Raise_ Exception "Failed to decode base64 image: Incorrect padding").
Proof.
  intros e400 e. split.
  - refine (proj1 (client_errors e400 "a red fox" None 30 7 512 512 1 None "m"
                     400 "bad request" [] [] ∅ [] "") _ _).
    + reflexivity.
    + discriminate.
  - refine (proj1 (proj2 (client_errors e "a red fox" None 30 7 512 512 1 None "m"
                     400 "" [Examples.good_entry] _
                     (<["base64" := JStr "QQ"]>
                        (<["finishReason" := JStr "SUCCESS"]> (<["seed" := JInt 5]> ∅)))
                     [Examples.good_entry] "Incorrect padding")) _ _ _).
    + vm_compute. reflexivity.
    + vm_compute. reflexivity.
    + vm_compute. reflexivity.
Defined.

(** C7 as the specification words it fails on the decode error: the same
    exception is raised whether the entry that does not decode is the first
    or the second, so no caller can tell from it which artifact failed. *)
Lemma decode_error_position_counterexample :
  let e := Examples.answering JNull in
  ~ (exists which : exn -> nat,
       forall arts i x,
         first_decode_failure e arts = Some i ->
         parse_response e (Examples.body_of (JArr arts)) = inl x ->
         which x = i).
Proof.
  intros e (which & H).
  pose proof (H [Examples.bad_entry; Examples.good_entry] 0%nat
                (decode_error "Incorrect padding")
                ltac:(vm_compute; reflexivity) ltac:(vm_compute; reflexivity)) as H0.
  pose proof (H [Examples.good_entry; Examples.bad_entry] 1%nat
                (decode_error "Incorrect padding")
                ltac:(vm_compute; reflexivity) ltac:(vm_compute; reflexivity)) as H1.
  rewrite H0 in H1. discriminate H1.
Qed.

(** ** The semaphore (lines 45 and 128-137) *)

Module GateFacts.

Import Gate.

Lemma total_held_insert ts : forall (i : nat) t t',
  ts !! i = Some t ->
  total_held (<[i := t']> ts) = total_held ts - held t + held t'.
Proof.
  induction ts as [| a ts IH]; intros i t t' Hi; [discriminate |].
  destruct i as [| i]; simpl in *.
  - injection Hi as ->. lia.
  - rewrite (IH i t t' Hi). lia.
Qed.

Lemma in_flight_total ts :
  Forall (λ t, held t = 0 \/ held t = 1) ts ->
  Z.of_nat (length (filter (λ t, 0 < held t) ts)) = total_held ts.
Proof.
  induction 1 as [| t ts Ht _ IH]; [reflexivity |].
  rewrite filter_cons. simpl total_held.
  case_decide; simpl length; lia.
Qed.

Lemma task_ok_step ev rest h :
  task_ok {| held := h; pending := ev :: rest |} ->
  task_ok {| held := held_after ev h; pending := rest |}.
Proof.
  unfold task_ok. simpl. intros [[-> | ->] Hb]; destruct ev; simpl in *;
    try discriminate; split; auto.
Qed.

Lemma held_step ev value value' h :
  perform ev value = Some value' ->
  value' + held_after ev h = value + h.
Proof.
  destruct ev; simpl; try (intros [= <-]; lia).
  destruct (Z.ltb_spec 0 value); [intros [= <-]; lia | discriminate].
Qed.

Lemma permits_step ev value value' :
  perform ev value = Some value' -> 0 <= value -> 0 <= value'.
Proof.
  destruct ev; simpl; try (intros [= <-]; lia).
  destruct (Z.ltb_spec 0 value); [intros [= <-]; lia | discriminate].
Qed.

Lemma invariant_step limit i σ σ' :
  invariant limit σ -> step i σ = Some σ' -> invariant limit σ'.
Proof.
  intros (Hpos & Hsum & Hok). unfold step.
  destruct (tasks σ !! i) as [t |] eqn:Hi; [| discriminate]. simpl.
  destruct t as [h [| ev rest]]; [discriminate |]. simpl.
  destruct (perform ev (permits σ)) as [value |] eqn:Hp; [| discriminate].
  simpl. intros [= <-]. unfold invariant. simpl.
  split; [eapply permits_step; eassumption |]. split.
  - rewrite (total_held_insert _ _ _ _ Hi). simpl.
    pose proof (held_step ev _ _ h Hp). lia.
  - apply Forall_insert; [exact Hok |]. apply task_ok_step.
    rewrite Forall_forall in Hok. apply Hok.
    apply list_elem_of_lookup. eauto.
Qed.

Lemma invariant_run limit schedule :
  forall σ σ', invariant limit σ -> run schedule σ = Some σ' -> invariant limit σ'.
Proof.
  induction schedule as [| i rest IH]; intros σ σ' Hinv; simpl.
  - intros [= <-]. exact Hinv.
  - destruct (step i σ) as [σ1 |] eqn:Hs; [| discriminate]. simpl.
    apply IH. eapply invariant_step; eassumption.
Qed.

Lemma bracketed_replies evs :
  forallb reply_or_log evs = true -> bracketed false evs = true.
Proof.
  induction evs as [| ev evs IH]; simpl; [reflexivity |].
  rewrite andb_true_iff. intros [Hev Hall].
  destruct ev; try discriminate; apply IH, Hall.
Qed.

(** The effects of a run of the handler, or of a call of the client, use
    the gate properly. *)
Lemma program_bracketed cfg prog : program cfg prog -> bracketed false prog = true.
Proof.
  intros [e u p lr rows | e pr neg st cs w h sm sd mdl lr rows].
  - destruct (slash_resim_shape cfg e u p (init_state lr rows))
      as (evs & s' & r & Hrun & Htr & Hshape).
    rewrite (effects_of_run _ _ _ _ _ _ Hrun Htr).
    destruct Hshape
      as [(_ & -> & _) | (_ & _ & [(_ & -> & _) | (_ & tail & -> & Htail & _)])];
      try reflexivity.
    simpl. apply bracketed_replies, Htail.
  - unfold effects_of. rewrite call_run. reflexivity.
Qed.

Lemma total_held_start programs :
  total_held ((λ prog, {| held := 0; pending := prog |}) <$> programs) = 0.
Proof.
  induction programs as [| prog rest IH]; [reflexivity |].
  rewrite fmap_cons. simpl. rewrite IH. reflexivity.
Qed.

Lemma invariant_start cfg programs :
  0 <= MAX_CONCURRENT cfg ->
  Forall (program cfg) programs ->
  invariant (MAX_CONCURRENT cfg) (start cfg programs).
Proof.
  intros Hmax Hprogs. unfold invariant, start. simpl.
  split; [exact Hmax |]. split; [rewrite total_held_start; lia |].
  apply Forall_fmap. eapply Forall_impl; [exact Hprogs |].
  intros prog Hprog. split; [left; reflexivity |].
  simpl. apply (program_bracketed cfg), Hprog.
Qed.

(** A task that is about to post, or that waits for the answer, holds the
    permit. *)
Lemma task_ok_posting t ev rest :
  task_ok t -> pending t = ev :: rest ->
  is_http_post ev = true \/ ev = SemRelease -> held t = 1.
Proof.
  intros [Hheld Hb] Hp Hev. rewrite Hp in Hb.
  destruct Hheld as [H0 | H1]; [| exact H1]. rewrite H0 in Hb.
  destruct Hev as [Hev | ->]; [destruct ev |]; discriminate.
Qed.

Lemma task_ok_held ts :
  Forall task_ok ts -> Forall (λ t, held t = 0 \/ held t = 1) ts.
Proof. intros H. eapply Forall_impl; [exact H |]. intros t [Ht _]. exact Ht. Qed.

End GateFacts.

(** C4. Every call of the client takes one permit before it posts the
    request and gives it back once, whether the body of the [try] returns
    or raises: its effects are the acquire, the post and the release, in
    this order, for every answer of the outside world. And when requests
    run concurrently, in every state that the scheduler can reach from the
    semaphore with [MAX_CONCURRENT] permits, the number of tasks between
    their acquire and their release is at most [MAX_CONCURRENT], and with
    the permits that are left it adds up to [MAX_CONCURRENT]; a task that
    is about to post its request, or that waits for the answer, is one of
    them. *)
Theorem gate_bounds_in_flight cfg e pr neg st cs w h sm sd mdl s programs schedule σ :
  (call_stability_generate e pr neg st cs w h sm sd mdl s).1
  = emitted s [SemAcquire;
               HttpPost (generation_url mdl) (build_payload pr neg st cs w h sm sd);
               SemRelease]
  /\ (0 <= MAX_CONCURRENT cfg ->
      Forall (Gate.program cfg) programs ->
      Gate.run schedule (Gate.start cfg programs) = Some σ ->
      Gate.in_flight σ <= MAX_CONCURRENT cfg
      /\ Gate.permits σ + Gate.in_flight σ = MAX_CONCURRENT cfg
      /\ 0 <= Gate.permits σ
      /\ Forall (λ t, Gate.held t = 0 \/ Gate.held t = 1) (Gate.tasks σ)
      /\ (forall t ev rest,
            t ∈ Gate.tasks σ -> Gate.pending t = ev :: rest ->
            is_http_post ev = true \/ ev = SemRelease ->
            Gate.held t = 1)).
Proof.
  split; [rewrite call_run; reflexivity |].
  intros Hmax Hprogs Hrun.
  destruct (GateFacts.invariant_run _ _ _ _
              (GateFacts.invariant_start cfg programs Hmax Hprogs) Hrun)
    as (Hpos & Hsum & Hok).
  pose proof (GateFacts.task_ok_held _ Hok) as Hheld.
  unfold Gate.in_flight. rewrite (GateFacts.in_flight_total _ Hheld).
  repeat split; try assumption; try lia.
  intros t ev rest Ht Hpending Hev.
  rewrite Forall_forall in Hok. apply (GateFacts.task_ok_posting _ _ _ (Hok t Ht) Hpending Hev).
Qed.

(** [gate_bounds_in_flight] with the default of two permits and three
    concurrent calls: once two of them have acquired, two calls are in
    flight, no permit is left and the third call cannot acquire; after the
    first call has posted and released, the third one acquires. *)
Lemma gate_bounds_in_flight_witness :
  let e := Examples.answering Examples.mixed_body in
  let prog :=
    effects_of (call_stability_generate e "a red fox" None 30 7 512 512 1 None "m")
               ∅ [] in
  exists σ σ',
    Gate.run [0; 1]%nat (Gate.start Examples.cfg [prog; prog; prog]) = Some σ
    /\ Gate.in_flight σ <= 2
    /\ Gate.in_flight σ = 2
    /\ Gate.permits σ = 0
    /\ Gate.step 2 σ = None
    /\ Gate.run [0; 0; 2]%nat σ = Some σ'
    /\ Gate.in_flight σ' = 2.
Proof.
  intros e prog.
  destruct (Gate.run [0; 1]%nat (Gate.start Examples.cfg [prog; prog; prog]))
    as [σ |] eqn:Hrun; [| vm_compute in Hrun; discriminate Hrun].
  destruct (Gate.run [0; 0; 2]%nat σ) as [σ' |] eqn:Hrun';
    [| vm_compute in Hrun; injection Hrun as <-;
       vm_compute in Hrun'; discriminate Hrun'].
  exists σ, σ'. split; [reflexivity |]. split.
  - refine (proj1 (proj2 (gate_bounds_in_flight Examples.cfg e "a red fox" None
              30 7 512 512 1 None "m" (init_state ∅ []) [prog; prog; prog]
              [0; 1]%nat σ) _ _ Hrun)).
    + vm_compute. discriminate.
    + repeat constructor.
  - vm_compute in Hrun. injection Hrun as <-.
    vm_compute in Hrun'. injection Hrun' as <-.
    repeat split.
Defined.

(** * Further properties of the code *)

(** ** The keyword filter (lines 84-89) *)

(** X3. The block-list at its edges: the empty list (the one of the
    repository) blocks no text; a list that holds the empty string blocks
    every text; and a list that holds every term of another blocks every
    text that the other blocks. *)
Theorem filter_block_list_edges cfg cfg' e text :
  (BANNED_KEYWORDS cfg = [] -> prompt_blocked cfg e text = false)
  /\ ("" ∈ BANNED_KEYWORDS cfg -> prompt_blocked cfg e text = true)
  /\ ((forall w, w ∈ BANNED_KEYWORDS cfg -> w ∈ BANNED_KEYWORDS cfg') ->
      prompt_blocked cfg e text = true -> prompt_blocked cfg' e text = true).
Proof.
  split; [| split].
  - unfold prompt_blocked. intros ->. reflexivity.
  - intros Hin. apply prompt_blocked_spec. exists "".
    split; [exact Hin |]. apply contains_spec, contains_empty_l.
  - intros Hsub. rewrite !prompt_blocked_spec. intros (w & Hw & Hocc).
    exists w. split; [apply Hsub, Hw | exact Hocc].
Qed.

Lemma filter_block_list_edges_witness :
  let e := Examples.answering JNull in
  prompt_blocked Examples.cfg e "a red fox" = false
  /\ prompt_blocked (Examples.cfg_with ["wolf"; ""]) e "a red fox" = true
  /\ prompt_blocked (Examples.cfg_with ["wolf"; "fox"]) e "a red fox" = true.
Proof.
  intros e. split; [| split].
  - apply (proj1 (filter_block_list_edges Examples.cfg Examples.cfg e "a red fox")).
    reflexivity.
  - apply (proj1 (proj2 (filter_block_list_edges (Examples.cfg_with ["wolf"; ""])
                           Examples.cfg e "a red fox"))).
    right. left.
  - apply (proj2 (proj2 (filter_block_list_edges (Examples.cfg_with ["fox"])
                           (Examples.cfg_with ["wolf"; "fox"]) e "a red fox"))).
    + intros w Hw. apply list_elem_of_singleton in Hw as ->. right. left.
    + vm_compute. reflexivity.
Defined.

(** ** The cooldown (lines 198-204) *)

Lemma passed_stamps cfg e u p s :
  rejected_by_cooldown cfg e u s = false ->
  last_request (slash_resim cfg e u p s).1
  = <[user_id u := time_time e]> (last_request s).
Proof.
  intros Hcd.
  destruct (slash_resim_shape cfg e u p s)
    as (evs & s' & r & Hrun & _ & [(Hc & _) | (_ & Hlr & _)]); [congruence |].
  rewrite Hrun. exact Hlr.
Qed.

(** X4. The cooldown starts with every request that passes the cooldown
    check, whatever happens to it afterwards (rejection by the filter, an
    error of the service, no artifact, a delivery): a second request of the
    same user that arrives before the window has elapsed is rejected with
    the remaining wait and nothing else. *)
Theorem cooldown_charged_whatever_follows cfg e1 e2 u p1 p2 s :
  rejected_by_cooldown cfg e1 u s = false ->
  (time_time e2 - time_time e1 < inject_Z (USER_COOLDOWN cfg))%Q ->
  let s1 := (slash_resim cfg e1 u p1 s).1 in
  slash_resim cfg e2 u p2 s1
  = (emitted s1
       [SendMessage (MsgCooldown
          (int_of_float (inject_Z (USER_COOLDOWN cfg)
                         - (time_time e2 - time_time e1))))],
     inr tt).
Proof.
  intros Hpass Hsoon s1.
  pose proof (passed_stamps cfg e1 u p1 s Hpass) as Hlr. fold s1 in Hlr.
  assert (Hcd : rejected_by_cooldown cfg e2 u s1 = true).
  { unfold rejected_by_cooldown. rewrite Hlr, lookup_insert_eq. simpl.
    apply Qltb_lt, Hsoon. }
  rewrite (slash_resim_cooldown cfg e2 u p2 s1 Hcd).
  unfold remaining_seconds. rewrite Hlr, lookup_insert_eq. reflexivity.
Qed.

(** The first request, at time 1000, fails with status 400; the second, at
    1003, is told to wait 7 seconds. *)
Lemma cooldown_charged_whatever_follows_witness :
  let e1 := Examples.world 1000 (HttpResponse 400 "bad request") (inr JNull) None in
  let e2 := Examples.world 1003 Examples.ok_answer (inr Examples.mixed_body) None in
  let s1 := (slash_resim Examples.cfg e1 Examples.ada Examples.fox (init_state ∅ [])).1 in
  slash_resim Examples.cfg e2 Examples.ada Examples.fox s1
  = (emitted s1 [SendMessage (MsgCooldown 7)], inr tt).
Proof.
  intros e1 e2 s1.
  refine (cooldown_charged_whatever_follows Examples.cfg e1 e2 Examples.ada
            Examples.fox Examples.fox (init_state ∅ []) _ _).
  - vm_compute. reflexivity.
  - vm_compute. reflexivity.
Defined.

(** X5. The cooldown table is kept per user: a request of one user never
    changes the entry of another user; a request that passes the check
    stores its own time under the user; and a user without an entry is
    handled as if the last request had been at time 0, so the request is
    rejected exactly when the clock is below [USER_COOLDOWN]. *)
Theorem cooldown_table_per_user cfg e u p s other :
  let s' := (slash_resim cfg e u p s).1 in
  (other <> user_id u -> last_request s' !! other = last_request s !! other)
  /\ (rejected_by_cooldown cfg e u s = false ->
      last_request s' !! user_id u = Some (time_time e))
  /\ (last_request s !! user_id u = None ->
      rejected_by_cooldown cfg e u s = true
      <-> (time_time e < inject_Z (USER_COOLDOWN cfg))%Q).
Proof.
  intros s'. split; [| split].
  - intros Hne.
    destruct (slash_resim_shape cfg e u p s)
      as (evs & s2 & r & Hrun & _ & [(_ & _ & Hlr & _) | (_ & Hlr & _)]);
      unfold s'; rewrite Hrun; simpl; rewrite Hlr; [reflexivity |].
    apply lookup_insert_ne. congruence.
  - intros Hpass. unfold s'. rewrite (passed_stamps _ _ _ _ _ Hpass).
    apply lookup_insert_eq.
  - intros Hnone. unfold rejected_by_cooldown. rewrite Hnone. simpl.
    rewrite Qltb_lt. split; intros H; lra.
Qed.

Lemma cooldown_table_per_user_witness :
  let e := Examples.world 1005 Examples.ok_answer (inr Examples.mixed_body) None in
  let bob := {| user_id := 8; user_name := "bob"; user_discriminator := "0002" |} in
  let s' := (slash_resim Examples.cfg e bob Examples.fox Examples.after_first_request).1 in
  last_request s' !! 7 = Some 1000%Q /\ last_request s' !! 8 = Some 1005%Q.
Proof.
  intros e bob s'. split.
  - refine (eq_trans (proj1 (cooldown_table_per_user Examples.cfg e bob
              Examples.fox Examples.after_first_request 7) _) _).
    + discriminate.
    + reflexivity.
  - refine (proj1 (proj2 (cooldown_table_per_user Examples.cfg e bob
              Examples.fox Examples.after_first_request 7)) _).
    vm_compute. reflexivity.
Defined.

(** X6. While the clock has not gone back behind the stored time, the wait
    that a rejected user is shown lies between 0 and [USER_COOLDOWN]. *)
Theorem remaining_wait_bounds cfg e u p s :
  rejected_by_cooldown cfg e u s = true ->
  (default 0%Q (last_request s !! user_id u) <= time_time e)%Q ->
  exists n,
    slash_resim cfg e u p s = (emitted s [SendMessage (MsgCooldown n)], inr tt)
    /\ 0 <= n <= USER_COOLDOWN cfg.
Proof.
  intros Hcd Hclock. exists (remaining_seconds cfg e u s).
  split; [apply slash_resim_cooldown, Hcd |].
  unfold rejected_by_cooldown in Hcd. apply Qltb_lt in Hcd.
  unfold remaining_seconds.
  set (last := default 0%Q (last_request s !! user_id u)) in *.
  set (left := (inject_Z (USER_COOLDOWN cfg) - (time_time e - last))%Q).
  assert (Hpos : (0 <= left)%Q) by (subst left; lra).
  assert (Hle : (left <= inject_Z (USER_COOLDOWN cfg))%Q) by (subst left; lra).
  rewrite (int_of_float_floor _ Hpos). split.
  - change 0 with (Qfloor 0). apply Qfloor_resp_le, Hpos.
  - rewrite <- (Qfloor_Z (USER_COOLDOWN cfg)). apply Qfloor_resp_le, Hle.
Qed.

Lemma remaining_wait_bounds_witness :
  exists n,
    slash_resim Examples.cfg
      (Examples.world 1004 Examples.ok_answer (inr JNull) None)
      Examples.ada Examples.fox Examples.after_first_request
    = (emitted Examples.after_first_request [SendMessage (MsgCooldown n)], inr tt)
    /\ 0 <= n <= 10.
Proof.
  refine (remaining_wait_bounds Examples.cfg
            (Examples.world 1004 Examples.ok_answer (inr JNull) None)
            Examples.ada Examples.fox Examples.after_first_request _ _).
  - vm_compute. reflexivity.
  - vm_compute. discriminate.
Defined.

(** ** The request body (lines 113-126) *)

(** X7. The request body holds the five numbers under their keys and the
    list of prompts under [text_prompts]: the prompt with weight 1 and,
    only for a negative prompt that is given and not empty, the negative
    prompt with weight -1 (an empty negative prompt gives the body of no
    negative prompt). It has no key besides these six and [seed]. *)
Theorem payload_shape pr neg st cs w h sm sd k :
  let payload := build_payload pr neg st cs w h sm sd in
  build_payload pr (Some "") st cs w h sm sd = build_payload pr None st cs w h sm sd
  /\ payload !! "text_prompts"
     = Some (JArr (text_prompt pr 1
                   :: if str_truthy neg
                      then [text_prompt (default "" neg) (-1)] else []))
  /\ payload !! "cfg_scale" = Some (JFloat cs)
  /\ payload !! "height" = Some (JInt h)
  /\ payload !! "width" = Some (JInt w)
  /\ payload !! "samples" = Some (JInt sm)
  /\ payload !! "steps" = Some (JInt st)
  /\ (is_Some (payload !! k) -> k ∈ payload_keys \/ k = "seed").
Proof.
  intros payload. split; [reflexivity |].
  unfold payload, build_payload.
  destruct (int_truthy sd); (repeat split; [reflexivity .. |]); intros Hk;
    repeat (apply lookup_insert_is_Some in Hk as [<- | [_ Hk]];
            [solve [ right; reflexivity
                   | left; unfold payload_keys; rewrite !elem_of_cons; auto 10 ] |]);
    rewrite lookup_empty in Hk; destruct Hk; discriminate.
Qed.

Lemma payload_shape_witness :
  build_payload "a red fox" (Some "blurry") 30 7 512 512 1 None
    !! "negative_prompt" = None.
Proof.
  destruct (build_payload "a red fox" (Some "blurry") 30 7 512 512 1 None
              !! "negative_prompt") as [v |] eqn:E; [| reflexivity].
  exfalso.
  destruct (proj2 (proj2 (proj2 (proj2 (proj2 (proj2 (proj2
    (payload_shape "a red fox" (Some "blurry") 30 7 512 512 1 None
       "negative_prompt"))))))) (ex_intro _ v E)) as [H | H].
  - unfold payload_keys in H. rewrite !elem_of_cons, elem_of_nil in H.
    repeat (destruct H as [H | H]; [discriminate H |]). exact H.
  - discriminate H.
Defined.

(** ** The response body (lines 139-156) *)

(** X8. A body without image arrays is not an error: when neither
    [artifacts] nor [result] holds a truthy value (a missing key, null, or
    an empty array) the client returns the empty list. A body that is not
    an object makes the client raise the AttributeError of [data.get]. *)
Theorem parse_response_edges e data d :
  (is_obj data = false -> parse_response e data = inl (no_attribute data "get"))
  /\ (truthy (dict_get d "artifacts") = false ->
      truthy (dict_get d "result") = false ->
      parse_response e (JObj d) = inr []).
Proof.
  split.
  - destruct data; try reflexivity. discriminate.
  - intros Ha Hr. unfold parse_response, select_artifacts. cbn [get]. simpl.
    rewrite Ha. simpl. unfold or_. rewrite Hr. reflexivity.
Qed.

Lemma parse_response_edges_witness :
  let e := Examples.answering JNull in
  parse_response e (JArr []) = inl (no_attribute (JArr []) "get")
  /\ parse_response e (JObj (<["artifacts" := JNull]> ∅)) = inr [].
Proof.
  intros e. split.
  - apply (proj1 (parse_response_edges e (JArr []) ∅)). reflexivity.
  - apply (proj2 (parse_response_edges e JNull (<["artifacts" := JNull]> ∅)));
      reflexivity.
Defined.

(** X9. Unwrapping is not flattening: when the first element of the array
    is itself an array, the client reads the entries of that inner array
    and nothing else; whatever follows it in the outer array is ignored. *)
Theorem nested_array_first_only e d inner others :
  parse_response e (JObj (<["artifacts" := JArr (JArr inner :: others)]> d))
  = collect e inner.
Proof.
  rewrite parse_response_artifacts by discriminate. reflexivity.
Qed.

Ltac by_truth :=
  repeat match goal with
         | H : truthy _ = _ |- _ => rewrite H
         | |- _ => progress simpl
         end;
  reflexivity.

(** X10. The field names in the order of lines 146 and 147: a truthy value
    under [base64] is the image data whatever the other fields hold; else a
    truthy value under [b64_json]; else the value under [b64]. An entry
    that holds its image data under [b64] gives the artifact of the same
    entry with the data under [base64]. For the finish reason
    [finishReason] comes before [finish_reason]. *)
Theorem field_name_priority e m v x y img rest :
  (truthy v = true -> image_field (<["base64" := v]> m) = v)
  /\ (truthy v = false -> truthy x = true ->
      image_field (<["base64" := v]> (<["b64_json" := x]> m)) = x)
  /\ (truthy v = false -> truthy x = false ->
      image_field (<["base64" := v]> (<["b64_json" := x]> (<["b64" := y]> m))) = y)
  /\ (m !! "base64" = None -> m !! "b64_json" = None -> m !! "b64" = None ->
      collect e (JObj (<["b64" := img]> m) :: rest)
      = collect e (JObj (<["base64" := img]> m) :: rest))
  /\ (truthy v = true -> finish_field (<["finishReason" := v]> m) = v)
  /\ (truthy v = false -> truthy x = true ->
      finish_field (<["finishReason" := v]> (<["finish_reason" := x]> m)) = x).
Proof.
  unfold image_field, finish_field, or_.
  split; [| split; [| split; [| split; [| split]]]].
  - intros Hv. dict_lookups. by_truth.
  - intros Hv Hx. dict_lookups. by_truth.
  - intros Hv Hx. dict_lookups. by_truth.
  - intros H1 H2 H3. rewrite !collect_obj.
    unfold artifact_of, image_field, finish_field, or_. dict_lookups.
    rewrite (dict_get_None _ _ H1), (dict_get_None _ _ H2), (dict_get_None _ _ H3).
    simpl. destruct (truthy img) eqn:E; rewrite ?E; reflexivity.
  - intros Hv. dict_lookups. by_truth.
  - intros Hv Hx. dict_lookups. by_truth.
Qed.

Lemma field_name_priority_witness :
  let e := Examples.answering JNull in
  let inner : gmap string json :=
    <["finishReason" := JStr "SUCCESS"]> (<["seed" := JInt 5]> ∅) in
  image_field (<["base64" := JStr "QUJD"]> (<["b64_json" := JStr "QQ=="]> inner))
  = JStr "QUJD"
  /\ collect e [JObj (<["b64" := JStr "QUJD"]> inner)]
     = collect e [JObj (<["base64" := JStr "QUJD"]> inner)].
Proof.
  intros e inner. split.
  - apply (proj1 (field_name_priority e (<["b64_json" := JStr "QQ=="]> inner)
                    (JStr "QUJD") JNull JNull JNull [])).
    reflexivity.
  - apply (proj1 (proj2 (proj2 (proj2
             (field_name_priority e inner JNull JNull JNull (JStr "QUJD") [])))));
      reflexivity.
Defined.

(** X11. One entry whose image data does not decode makes the whole call
    fail: for a list of entries that are objects, when the first entry that
    does not decode is at position [i], the client raises the decode error
    with the message of the decoder for that entry, and returns none of the
    artifacts that it had decoded before. *)
Theorem decode_failure_aborts e arts :
  forall i,
    Forall (λ art, is_obj art = true) arts ->
    first_decode_failure e arts = Some i ->
    exists m msg,
      arts !! i = Some (JObj m)
      /\ b64decode e (image_field m) = inl msg
      /\ collect e arts = inl (decode_error msg).
Proof.
  induction arts as [| a rest IH]; intros i Hobj Hfirst; [discriminate |].
  apply Forall_cons in Hobj as [Ha Hrest].
  destruct a as [| b | n | q | t | l | m]; try discriminate.
  rewrite collect_obj. cbn [first_decode_failure decode_fails] in Hfirst.
  destruct (truthy (image_field m)) eqn:Himg; simpl in Hfirst |- *.
  - unfold artifact_of.
    destruct (b64decode e (image_field m)) as [msg | img] eqn:Hdec.
    + injection Hfirst as <-. exists m, msg. repeat split. exact Hdec.
    + destruct (first_decode_failure e rest) as [j |] eqn:Hj; [| discriminate].
      injection Hfirst as <-.
      destruct (IH j Hrest eq_refl) as (m' & msg & Hl & Hd & Hc).
      exists m', msg. simpl. rewrite Hc. repeat split; assumption.
  - destruct (first_decode_failure e rest) as [j |] eqn:Hj; [| discriminate].
    injection Hfirst as <-.
    destruct (IH j Hrest eq_refl) as (m' & msg & Hl & Hd & Hc).
    exists m', msg. repeat split; assumption.
Qed.

Lemma decode_failure_aborts_witness :
  let e := Examples.answering JNull in
  exists m msg,
    [Examples.good_entry; Examples.bad_entry] !! 1%nat = Some (JObj m)
    /\ b64decode e (image_field m) = inl msg
    /\ collect e [Examples.good_entry; Examples.bad_entry]
       = inl (decode_error msg).
Proof.
  intros e.
  refine (decode_failure_aborts e [Examples.good_entry; Examples.bad_entry]
            1%nat _ _).
  - repeat constructor.
  - vm_compute. reflexivity.
Defined.

(** X12. When the client returns a list, every entry was an object, the
    list has one artifact for each entry with image data, and so it is
    never longer than the array of the service. *)
Theorem collect_counts e arts results :
  collect e arts = inr results ->
  Forall (λ art, is_obj art = true) arts
  /\ length results = length (filter (λ art, has_image art = true) arts)
  /\ (length results <= length arts)%nat.
Proof.
  intros Hc.
  assert (Hlen : length results = length (filter (λ art, has_image art = true) arts)).
  { symmetry. eapply Forall2_length, collect_order, Hc. }
  split; [| split; [exact Hlen |]].
  - clear Hlen. revert results Hc.
    induction arts as [| a rest IH]; intros results Hc; [constructor |].
    destruct a as [| b | n | q | t | l | m]; try discriminate.
    constructor; [reflexivity |].
    rewrite collect_obj in Hc.
    destruct (negb (truthy (image_field m))); [exact (IH _ Hc) |].
    destruct (artifact_of e m); [discriminate |]. simpl in Hc.
    destruct (collect e rest) as [x | rs]; [discriminate |].
    exact (IH rs eq_refl).
  - rewrite Hlen. apply length_filter.
Qed.

Lemma collect_counts_witness :
  let e := Examples.answering JNull in
  let no_image := JObj (<["finishReason" := JStr "SUCCESS"]> ∅) in
  exists results,
    collect e [Examples.good_entry; no_image] = inr results
    /\ length results = 1%nat.
Proof.
  intros e no_image.
  destruct (collect e [Examples.good_entry; no_image]) as [x | results] eqn:Hc;
    [vm_compute in Hc; discriminate Hc |].
  exists results. split; [reflexivity |].
  rewrite (proj1 (proj2 (collect_counts e _ results Hc))).
  vm_compute. reflexivity.
Defined.

Lemma client_result_of_call e pr neg st cs w h sm sd mdl s :
  (call_stability_generate e pr neg st cs w h sm sd mdl s).2
  = match session_post e (generation_url mdl)
            (build_payload pr neg st cs w h sm sd) with
    | HttpRaise x => inl x
    | HttpResponse status text =>
        if Z.eqb status 200
        then data ← json_loads e text; parse_response e data
        else inl (upstream_error status text)
    end.
Proof.
  rewrite call_run. cbn [snd].
  unfold result_of, call_stability_generate, post_and_load, try_finally,
    raise, lift, emit, mbind, M_bind. simpl.
  destruct (session_post e _ _) as [status text | x]; [| reflexivity].
  destruct (Z.eqb status 200); simpl; [| reflexivity].
  destruct (json_loads e text); reflexivity.
Qed.

(** X13. What a call of the client returns, by the answer of the service
    alone: an exception of the transport is passed on as it is; a status
    other than 200 (201 and 204 as well) gives the error with the status
    and the body; with the status 200 the text is decoded and an exception
    of [json.loads] is passed on as it is, else the decoded body is read by
    lines 139-156. The globals play no part: the result is the same from
    every state, and the call changes neither table. *)
Theorem client_result e pr neg st cs w h sm sd mdl s s' :
  (call_stability_generate e pr neg st cs w h sm sd mdl s).2
  = match session_post e (generation_url mdl)
            (build_payload pr neg st cs w h sm sd) with
    | HttpRaise x => inl x
    | HttpResponse status text =>
        if Z.eqb status 200
        then data ← json_loads e text; parse_response e data
        else inl (upstream_error status text)
    end
  /\ (call_stability_generate e pr neg st cs w h sm sd mdl s).2
     = (call_stability_generate e pr neg st cs w h sm sd mdl s').2
  /\ last_request (call_stability_generate e pr neg st cs w h sm sd mdl s).1
     = last_request s
  /\ usages (call_stability_generate e pr neg st cs w h sm sd mdl s).1
     = usages s.
Proof.
  split; [apply client_result_of_call |].
  split; [rewrite !client_result_of_call; reflexivity |].
  rewrite call_run. split; reflexivity.
Qed.

(** ** The handler (lines 188-265) *)

(** X14. What the handler does for a request that passed both checks and
    whose generation call raises [x]: the acknowledgement, the three
    effects of the call, and as its last action one message to the user
    that holds [str(x)] as it is; for a status other than 200 this is the
    text with the status and the whole body of the response, which is not
    cut to any length. When the call returns no artifact the last action is
    the notice of line 238. In both cases nothing is inserted, the table
    and the open transaction are as they were, and the time of the request
    stays recorded. *)
Theorem handler_reports_failure cfg e u p s :
  rejected_by_cooldown cfg e u s = false ->
  rejected_by_filter cfg e p = false ->
  let s1 := emitted (stamped s (user_id u) (time_time e))
              [Defer; SemAcquire; handler_post cfg p; SemRelease] in
  (forall x,
      result_of (handler_call cfg e p) ∅ [] = inl x ->
      (slash_resim cfg e u p s).1
      = emitted s1 [FollowupSend (MsgApiError (exn_str x))])
  /\ (forall url payload status text,
        handler_post cfg p = HttpPost url payload ->
        session_post e url payload = HttpResponse status text ->
        status <> 200 ->
        (slash_resim cfg e u p s).1
        = emitted s1
            [FollowupSend (MsgApiError
               ("Stability API error " +:+ pretty status +:+ ": " +:+ text))])
  /\ (result_of (handler_call cfg e p) ∅ [] = inr [] ->
      (slash_resim cfg e u p s).1
      = emitted s1 [FollowupSend MsgNoResults]).
Proof.
  intros Hcd Hf s1.
  pose proof (slash_resim_passed cfg e u p s Hcd Hf) as Hrun.
  cbv zeta in Hrun. fold s1 in Hrun.
  split; [| split].
  - intros x Hx. rewrite Hrun, Hx. reflexivity.
  - intros url payload status text Hpost Hanswer Hstatus.
    assert (Hx : result_of (handler_call cfg e p) ∅ []
                 = inl (upstream_error status text)).
    { unfold result_of, handler_call. cbv zeta. rewrite client_result_of_call.
      match goal with
      | |- context [session_post e ?a ?b] =>
          replace (session_post e a b) with (HttpResponse status text)
      end.
      - destruct (Z.eqb_spec status 200); [congruence | reflexivity].
      - symmetry. unfold handler_post in Hpost. injection Hpost as <- <-.
        exact Hanswer. }
    rewrite Hrun, Hx. reflexivity.
  - intros Hx. rewrite Hrun, Hx. reflexivity.
Qed.

Lemma handler_reports_failure_witness :
  let e := Examples.world 1000 (HttpResponse 400 "bad request") (inr JNull) None in
  effects_of (slash_resim Examples.cfg e Examples.ada Examples.fox) ∅ []
  = [Defer; SemAcquire; handler_post Examples.cfg Examples.fox; SemRelease;
     FollowupSend (MsgApiError "Stability API error 400: bad request")].
Proof.
  intros e. unfold effects_of.
  assert (Hcd : rejected_by_cooldown Examples.cfg e Examples.ada (init_state ∅ [])
                = false) by (vm_compute; reflexivity).
  assert (Hf : rejected_by_filter Examples.cfg e Examples.fox = false)
    by (vm_compute; reflexivity).
  assert (Hstatus : 400 <> 200) by discriminate.
  rewrite (proj1 (proj2 (handler_reports_failure Examples.cfg e Examples.ada
             Examples.fox (init_state ∅ []) Hcd Hf))
             _ _ 400 "bad request" eq_refl eq_refl Hstatus).
  reflexivity.
Defined.

(** X16. The usage table is only appended to, and only by a commit that
    succeeds: a run of the handler keeps every committed row in its place;
    it adds rows only when it has executed the INSERT and both the
    statement and the commit succeeded, and it then adds the rows that were
    pending on the connection followed by the row of this request, and
    nothing stays pending. When the commit fails and SQLite has not rolled
    back, the row of the request stays pending behind the others, so that a
    later request whose commit succeeds writes it too; a failure with a
    rollback empties the open transaction. A run that inserts nothing
    leaves the open transaction as it was. *)
Theorem usage_table_append_only cfg e u p s :
  let row := handler_row e u (normalize p)
               (default (DEFAULT_MODEL cfg) (model p)) in
  let final := (slash_resim cfg e u p s).1 in
  let evs := effects_from (slash_resim cfg e u p) s in
  (exists added,
     usages final = usages s ++ added
     /\ (added = []
         \/ (added = pending s ++ [row] /\ inserts evs = [row]
             /\ sql_insert e row = None /\ sql_commit e = None
             /\ pending final = [])))
  /\ (inserts evs = [row] -> sql_insert e row = None ->
      is_Some (sql_commit e) -> sql_rollback e = false ->
      usages final = usages s /\ pending final = pending s ++ [row])
  /\ (inserts evs = [row] -> is_Some (sql_insert e row) ->
      sql_rollback e = false ->
      usages final = usages s /\ pending final = pending s)
  /\ (inserts evs = [row] ->
      is_Some (sql_insert e row) \/ is_Some (sql_commit e) ->
      sql_rollback e = true ->
      usages final = usages s /\ pending final = [])
  /\ (inserts evs = [] -> pending final = pending s)
  /\ row_user_id row = pretty (user_id u)
  /\ row_timestamp row = utcnow_isoformat e.
Proof.
  intros row final evs.
  destruct (insert_cases cfg e u p s) as [_ Hcases].
  fold row evs in Hcases. fold final in Hcases.
  split; [| split; [| split; [| split; [| split; [| split; reflexivity]]]]].
  - destruct Hcases as [(_ & Hus & _) | (Hins & _ & _ & _ & Hus & Hpe)].
    + exists []. rewrite app_nil_r. split; [exact Hus | left; reflexivity].
    + unfold written_rows in Hus. unfold left_pending in Hpe.
      destruct (sql_insert e row) as [x |] eqn:Hsql;
        [exists []; split; [exact Hus | left; reflexivity] |].
      destruct (sql_commit e) as [x |] eqn:Hc;
        [exists []; split; [exact Hus | left; reflexivity] |].
      exists (pending s ++ [row]). split; [exact Hus |]. right.
      repeat split; assumption.
  - intros Hins Hsql [x Hc] Hroll.
    destruct Hcases as [(Hnone & _) | (_ & _ & _ & _ & Hus & Hpe)];
      [rewrite Hins in Hnone; discriminate Hnone |].
    unfold written_rows in Hus. unfold left_pending in Hpe.
    rewrite Hsql, Hc in Hus, Hpe. rewrite Hroll in Hpe.
    rewrite app_nil_r in Hus. split; assumption.
  - intros Hins [x Hsql] Hroll.
    destruct Hcases as [(Hnone & _) | (_ & _ & _ & _ & Hus & Hpe)];
      [rewrite Hins in Hnone; discriminate Hnone |].
    unfold written_rows in Hus. unfold left_pending in Hpe.
    rewrite Hsql in Hus, Hpe. rewrite Hroll in Hpe.
    rewrite app_nil_r in Hus. split; assumption.
  - intros Hins Hfail Hroll.
    destruct Hcases as [(Hnone & _) | (_ & _ & _ & _ & Hus & Hpe)];
      [rewrite Hins in Hnone; discriminate Hnone |].
    unfold written_rows in Hus. unfold left_pending in Hpe.
    rewrite Hroll in Hpe.
    destruct (sql_insert e row) as [x |] eqn:Hsql.
    + rewrite app_nil_r in Hus. split; assumption.
    + destruct (sql_commit e) as [x |] eqn:Hc.
      * rewrite app_nil_r in Hus. split; assumption.
      * destruct Hfail as [[x Hx] | [x Hx]]; discriminate Hx.
  - intros Hins.
    destruct Hcases as [(_ & _ & Hpe & _) | (Hrow & _)]; [exact Hpe |].
    rewrite Hins in Hrow. discriminate Hrow.
Qed.

(** Two requests of one user, twenty seconds apart: the commit of the first
    raises "database is locked" and its row stays pending; the commit of
    the second succeeds and writes both rows. *)
Lemma usage_table_append_only_witness :
  let locked := Raise_ DatabaseError "database is locked" in
  let e1 := with_db (Examples.answering Examples.mixed_body) (λ _, None)
              (Some locked) false in
  let e2 := Examples.world 1020 Examples.ok_answer (inr Examples.mixed_body) None in
  let row1 := handler_row e1 Examples.ada (normalize Examples.fox)
                (DEFAULT_MODEL Examples.cfg) in
  let row2 := handler_row e2 Examples.ada (normalize Examples.fox)
                (DEFAULT_MODEL Examples.cfg) in
  let s1 := (slash_resim Examples.cfg e1 Examples.ada Examples.fox
               (init_state ∅ [])).1 in
  let s2 := (slash_resim Examples.cfg e2 Examples.ada Examples.fox s1).1 in
  (usages s1 = [] /\ pending s1 = [row1])
  /\ usages s2 = [row1; row2] /\ pending s2 = [].
Proof.
  intros locked e1 e2 row1 row2 s1 s2. split.
  - apply (proj1 (proj2 (usage_table_append_only Examples.cfg e1 Examples.ada
                           Examples.fox (init_state ∅ [])))).
    + vm_compute. reflexivity.
    + reflexivity.
    + exists locked. reflexivity.
    + reflexivity.
  - destruct (proj1 (usage_table_append_only Examples.cfg e2 Examples.ada
                       Examples.fox s1))
      as (added & Hus & [-> | (-> & _ & _ & _ & Hpe)]).
    + exfalso. vm_compute in Hus. discriminate Hus.
    + split; [| exact Hpe]. fold s2 in Hus. rewrite Hus.
      vm_compute. reflexivity.
Defined.

Lemma replies_quiet tail :
  forallb reply_or_log tail = true ->
  filter (λ ev, is_http_post ev = true) tail = []
  /\ existsb is_http_post tail = false
  /\ existsb is_gate_event tail = false.
Proof.
  induction tail as [| ev tail IH]; simpl; [repeat split |].
  rewrite andb_true_iff. intros [Hev Hall]. destruct (IH Hall) as (H1 & H2 & H3).
  rewrite filter_cons, H1, H2, H3.
  destruct ev; try discriminate; repeat split.
Qed.

(** X17. No retries: a run of the handler posts at most one request; and
    when it posts one, the run starts with the acknowledgement, the
    acquire, the post and the release, and what follows holds no further
    request and no semaphore operation. *)
Theorem at_most_one_request cfg e u p lr rows :
  let evs := effects_of (slash_resim cfg e u p) lr rows in
  (length (filter (λ ev, is_http_post ev = true) evs) <= 1)%nat
  /\ (existsb is_http_post evs = true ->
      exists tail,
        evs = [Defer; SemAcquire; handler_post cfg p; SemRelease] ++ tail
        /\ existsb is_http_post tail = false
        /\ existsb is_gate_event tail = false).
Proof.
  intros evs.
  destruct (slash_resim_shape cfg e u p (init_state lr rows))
    as (evs' & s' & r & Hrun & Htr & Hshape).
  assert (Hevs : evs = evs') by (apply (effects_of_run _ _ _ _ _ _ Hrun Htr)).
  clearbody evs. subst evs'.
  destruct Hshape
    as [(_ & -> & _) | (_ & _ & [(_ & -> & _) | (_ & tail & -> & Htail & _)])].
  - split; [simpl; lia | discriminate].
  - split; [simpl; lia | discriminate].
  - destruct (replies_quiet tail Htail) as (H1 & H2 & H3). split.
    + change ([Defer; SemAcquire; handler_post cfg p; SemRelease] ++ tail)
        with (Defer :: SemAcquire :: handler_post cfg p :: SemRelease :: tail).
      rewrite !filter_cons. simpl. rewrite H1. simpl. lia.
    + intros _. exists tail. repeat split; assumption.
Qed.

Lemma at_most_one_request_witness :
  let e := Examples.answering Examples.mixed_body in
  let evs := effects_of (slash_resim Examples.cfg e Examples.ada Examples.fox) ∅ [] in
  exists tail,
    evs = [Defer; SemAcquire; handler_post Examples.cfg Examples.fox; SemRelease]
          ++ tail
    /\ existsb is_http_post tail = false
    /\ existsb is_gate_event tail = false.
Proof.
  intros e evs.
  refine (proj2 (at_most_one_request Examples.cfg e Examples.ada Examples.fox ∅ []) _).
  vm_compute. reflexivity.
Defined.

Lemma deliver_first_reply e p mdl a rest :
  forall idx sent s s' names,
    deliver e p mdl idx (a :: rest) sent s = (s', inr names) ->
    exists ev evs, trace s' = trace s ++ ev :: evs /\ is_user_message ev = true.
Proof.
  intros idx sent s s' names H.
  cbn [deliver] in H. rewrite bind_run in H. unfold lift at 1 in H.
  destruct (finish_tag e (art_finish_reason a)) as [x0 | finish]; [discriminate |].
  destruct (filtered finish); rewrite bind_run, emit_run in H;
    match type of H with
    | deliver _ _ _ ?i _ ?sn (emitted s [?ev]) = _ =>
        destruct (deliver_shape e p mdl rest i sn (emitted s [ev]))
          as (evs & r & Hrun & _);
        rewrite Hrun in H; injection H as <- _; exists ev, evs
    end;
    (split; [unfold emitted; simpl; rewrite <- app_assoc; reflexivity | reflexivity]).
Qed.

Lemma after_generate_answers e u p mdl results s s' :
  after_generate e u p mdl results s = (s', inr tt) ->
  exists pre ev post,
    trace s' = trace s ++ pre ++ ev :: post /\ is_user_message ev = true.
Proof.
  destruct results as [| a rest].
  - rewrite after_generate_nil. intros [= <-].
    exists [], (FollowupSend MsgNoResults), []. split; reflexivity.
  - unfold after_generate. rewrite bind_run.
    destruct (deliver e p mdl 1 (a :: rest) [] s) as [s1 [x | names]] eqn:Hd;
      [discriminate |].
    apply deliver_first_reply in Hd as (ev & evs & Htr & Hev).
    rewrite bind_run. unfold attempt. rewrite log_usage_run.
    destruct names; intros [= <-];
      exists [], ev; eexists; (split; [| exact Hev]);
      unfold emitted, recorded, emit; simpl; rewrite Htr, <- ?app_assoc;
      reflexivity.
Qed.

Lemma existsb_middle {A} (f : A -> bool) pre ev post :
  f ev = true -> existsb f (pre ++ ev :: post) = true.
Proof.
  intros H. rewrite existsb_app. simpl. rewrite H. apply orb_true_r.
Qed.

(** X18. A handler that returns normally has answered: in every run that
    does not raise, at least one message or image was sent to the user
    (the cooldown notice, the rejection, the error of the call, the notice
    of an empty result, or a reply of the delivery loop). *)
Theorem user_always_answered cfg e u p lr rows :
  result_of (slash_resim cfg e u p) lr rows = inr tt ->
  existsb is_user_message (effects_of (slash_resim cfg e u p) lr rows) = true.
Proof.
  unfold result_of, effects_of.
  destruct (rejected_by_cooldown cfg e u (init_state lr rows)) eqn:Hcd;
    [| destruct (rejected_by_filter cfg e p) eqn:Hf].
  - rewrite (slash_resim_cooldown _ _ _ _ _ Hcd). reflexivity.
  - rewrite (slash_resim_blocked _ _ _ _ _ Hcd Hf). reflexivity.
  - rewrite (slash_resim_passed _ _ _ _ _ Hcd Hf).
    destruct (result_of (handler_call cfg e p) ∅ []) as [x | results];
      [reflexivity |].
    match goal with
    | |- context [after_generate ?a1 ?a2 ?a3 ?a4 ?a5 ?a6] =>
        destruct (after_generate a1 a2 a3 a4 a5 a6) as [s' [x | []]] eqn:Hrun
    end; [discriminate |].
    intros _. apply after_generate_answers in Hrun as (pre & ev & post & Htr & Hev).
    simpl. rewrite Htr. simpl. apply existsb_middle, Hev.
Qed.

Lemma user_always_answered_witness :
  let e := Examples.answering Examples.filtered_body in
  existsb is_user_message
    (effects_of (slash_resim Examples.cfg e Examples.ada Examples.fox) ∅ [])
  = true.
Proof.
  intros e. apply user_always_answered. vm_compute. reflexivity.
Defined.

(** ** Normalisation of the parameters (lines 215-221) *)

(** X19. Normalisation leaves valid parameters alone: steps in [10,80],
    samples in [1,4] and sizes in {256,512,768,1024} are returned as
    given, and a scale in [1,30] is returned with its value. Values
    outside are moved to the nearer bound; the prompt, the negative
    prompt, the seed and the model are never changed. *)
Theorem normalize_valid_unchanged p :
  (10 <= steps p <= 80 -> steps (normalize p) = steps p)
  /\ (steps p < 10 -> steps (normalize p) = 10)
  /\ (80 < steps p -> steps (normalize p) = 80)
  /\ (1 <= samples p <= 4 -> samples (normalize p) = samples p)
  /\ (samples p < 1 -> samples (normalize p) = 1)
  /\ (4 < samples p -> samples (normalize p) = 4)
  /\ ((1 <= cfg_scale p /\ cfg_scale p <= 30)%Q ->
      (cfg_scale (normalize p) == cfg_scale p)%Q)
  /\ ((cfg_scale p < 1)%Q -> cfg_scale (normalize p) = 1%Q)
  /\ ((30 < cfg_scale p)%Q -> cfg_scale (normalize p) = 30%Q)
  /\ (allowed_size (width p) = true -> width (normalize p) = width p)
  /\ (allowed_size (height p) = true -> height (normalize p) = height p)
  /\ prompt (normalize p) = prompt p
  /\ negative_prompt (normalize p) = negative_prompt p
  /\ seed (normalize p) = seed p
  /\ model (normalize p) = model p.
Proof.
  unfold normalize. cbn [prompt negative_prompt steps cfg_scale width height
                         samples seed model].
  rewrite !maxZ_spec, !minZ_spec. unfold maxQ, minQ.
  repeat split; try lia; try (intros ->; reflexivity).
  - intros [H1 H30].
    destruct (Qltb (cfg_scale p) 30) eqn:E1.
    + destruct (Qltb 1 (cfg_scale p)) eqn:E2; [reflexivity |].
      apply Qltb_ge in E2. apply Qle_antisym; assumption.
    + apply Qltb_ge in E1. simpl. apply Qle_antisym; assumption.
  - intros Hlow.
    destruct (Qltb (cfg_scale p) 30) eqn:E1.
    + destruct (Qltb 1 (cfg_scale p)) eqn:E2; [| reflexivity].
      apply Qltb_lt in E2. lra.
    + apply Qltb_ge in E1. lra.
  - intros Hhigh.
    destruct (Qltb (cfg_scale p) 30) eqn:E1; [| reflexivity].
    apply Qltb_lt in E1. lra.
Qed.

Lemma normalize_valid_unchanged_witness :
  steps (normalize Examples.fox) = 30
  /\ (cfg_scale (normalize Examples.fox) == 7)%Q
  /\ width (normalize Examples.fox) = 512.
Proof.
  pose proof (normalize_valid_unchanged Examples.fox)
    as (Hs & _ & _ & _ & _ & _ & Hc & _ & _ & Hw & _).
  split; [apply Hs; vm_compute; split; discriminate |].
  split; [apply Hc; vm_compute; split; discriminate | apply Hw; reflexivity].
Defined.

(** ** The semaphore under concurrent requests (lines 45 and 128-137) *)

Module GateMore.

Import Gate GateFacts.

Lemma reachable_invariant cfg programs schedule σ :
  0 <= MAX_CONCURRENT cfg ->
  Forall (program cfg) programs ->
  run schedule (start cfg programs) = Some σ ->
  invariant (MAX_CONCURRENT cfg) σ.
Proof.
  intros Hmax Hprogs Hrun.
  exact (invariant_run _ _ _ _ (invariant_start cfg programs Hmax Hprogs) Hrun).
Qed.

Lemma total_held_zero ts :
  Forall (λ t, held t = 0) ts -> total_held ts = 0.
Proof.
  induction 1 as [| t ts Ht _ IH]; simpl; [reflexivity | lia].
Qed.

Lemma total_held_nonneg ts :
  Forall (λ t, held t = 0 \/ held t = 1) ts -> 0 <= total_held ts.
Proof.
  induction 1 as [| t ts Ht _ IH]; simpl; lia.
Qed.

Lemma held_all_zero ts :
  Forall (λ t, held t = 0 \/ held t = 1) ts -> total_held ts = 0 ->
  Forall (λ t, held t = 0) ts.
Proof.
  induction 1 as [| t ts Ht Hts IH]; simpl; intros Hsum; [constructor |].
  pose proof (total_held_nonneg ts Hts).
  constructor; [lia | apply IH; lia].
Qed.

Lemma finished_holds_nothing t :
  task_ok t -> pending t = [] -> held t = 0.
Proof.
  intros [[H | H] Hb] Hp; [exact H |].
  rewrite Hp, H in Hb. discriminate Hb.
Qed.

Lemma forallb_false_elem {A} (f : A -> bool) l :
  forallb f l = false -> exists x, x ∈ l /\ f x = false.
Proof.
  induction l as [| a l IH]; simpl; [discriminate |].
  destruct (f a) eqn:E; simpl.
  - intros H. destruct (IH H) as (x & Hx & Hfx). exists x. split; [right |]; assumption.
  - intros _. exists a. split; [left | exact E].
Qed.

Lemma step_enabled i σ t ev rest :
  tasks σ !! i = Some t -> pending t = ev :: rest ->
  ev = SemAcquire -> 0 < permits σ -> is_Some (step i σ).
Proof.
  intros Hi Hp -> Hpos. unfold step. rewrite Hi. simpl. rewrite Hp. simpl.
  destruct (Z.ltb_spec 0 (permits σ)); [| lia]. simpl. eexists. reflexivity.
Qed.

Lemma step_enabled_other i σ t ev rest :
  tasks σ !! i = Some t -> pending t = ev :: rest ->
  ev <> SemAcquire -> is_Some (step i σ).
Proof.
  intros Hi Hp Hev. unfold step. rewrite Hi. simpl. rewrite Hp.
  destruct ev; try congruence; simpl; eexists; reflexivity.
Qed.

End GateMore.

(** X20. When every task has run to its end, all permits are back: the
    semaphore holds [MAX_CONCURRENT] again and no task is in flight,
    whatever the schedule was and however the calls ended. *)
Theorem permits_returned cfg programs schedule σ :
  0 <= MAX_CONCURRENT cfg ->
  Forall (Gate.program cfg) programs ->
  Gate.run schedule (Gate.start cfg programs) = Some σ ->
  all_finished σ = true ->
  Gate.permits σ = MAX_CONCURRENT cfg /\ Gate.in_flight σ = 0.
Proof.
  intros Hmax Hprogs Hrun Hfin.
  destruct (GateMore.reachable_invariant cfg programs schedule σ Hmax Hprogs Hrun)
    as (_ & Hsum & Hok).
  assert (Hzero : Forall (λ t, Gate.held t = 0) (Gate.tasks σ)).
  { unfold all_finished in Hfin. rewrite forallb_forall in Hfin.
    rewrite Forall_forall in Hok. apply Forall_forall. intros t Ht.
    apply GateMore.finished_holds_nothing; [apply Hok, Ht |].
    specialize (Hfin t (proj1 (list_elem_of_In _ _) Ht)).
    destruct (Gate.pending t); [reflexivity | discriminate]. }
  pose proof (GateMore.total_held_zero _ Hzero) as Htotal.
  split; [lia |].
  unfold Gate.in_flight. rewrite GateFacts.in_flight_total; [exact Htotal |].
  eapply Forall_impl; [exact Hzero |]. intros t Ht. left. exact Ht.
Qed.

Lemma permits_returned_witness :
  let e := Examples.answering Examples.mixed_body in
  let prog :=
    effects_of (call_stability_generate e "a red fox" None 30 7 512 512 1 None "m")
               ∅ [] in
  exists σ,
    Gate.run [0; 1; 0; 1; 1; 0]%nat (Gate.start Examples.cfg [prog; prog]) = Some σ
    /\ Gate.permits σ = 2 /\ Gate.in_flight σ = 0.
Proof.
  intros e prog.
  destruct (Gate.run [0; 1; 0; 1; 1; 0]%nat (Gate.start Examples.cfg [prog; prog]))
    as [σ |] eqn:Hrun; [| vm_compute in Hrun; discriminate Hrun].
  exists σ. split; [reflexivity |].
  refine (permits_returned Examples.cfg [prog; prog] _ σ _ _ Hrun _).
  - vm_compute. discriminate.
  - repeat constructor.
  - vm_compute in Hrun. injection Hrun as <-. reflexivity.
Defined.

(** X21. The gate cannot deadlock: with at least one permit configured, in
    every reachable state in which some task is not finished, some task
    can take its next step. *)
Theorem gate_no_deadlock cfg programs schedule σ :
  1 <= MAX_CONCURRENT cfg ->
  Forall (Gate.program cfg) programs ->
  Gate.run schedule (Gate.start cfg programs) = Some σ ->
  all_finished σ = false ->
  exists i σ', Gate.step i σ = Some σ'.
Proof.
  intros Hmax Hprogs Hrun Hfin.
  destruct (GateMore.reachable_invariant cfg programs schedule σ
              ltac:(lia) Hprogs Hrun) as (Hpos & Hsum & Hok).
  pose proof (GateFacts.task_ok_held _ Hok) as Hheld.
  destruct (decide (Exists (λ t, Gate.held t = 1) (Gate.tasks σ))) as [Hex | Hnone].
  - (* a task holds a permit: its next effect is not an acquire *)
    apply Exists_exists in Hex as (t & Ht & Hone).
    apply list_elem_of_lookup in Ht as Hi. destruct Hi as [i Hi].
    rewrite Forall_forall in Hok. destruct (Hok t Ht) as [_ Hb].
    rewrite Hone in Hb. simpl in Hb.
    destruct (Gate.pending t) as [| ev rest] eqn:Hp; [discriminate |].
    assert (Hev : ev <> SemAcquire) by (intros ->; discriminate).
    destruct (GateMore.step_enabled_other i σ t ev rest Hi Hp Hev) as [σ' Hs].
    exists i, σ'. exact Hs.
  - (* nobody holds a permit: they are all in the semaphore *)
    assert (Hzero : Forall (λ t, Gate.held t = 0) (Gate.tasks σ)).
    { apply not_Exists_Forall in Hnone; [| intros t; apply _].
      rewrite Forall_forall in Hnone, Hheld. apply Forall_forall.
      intros t Ht. destruct (Hheld t Ht) as [H | H]; [exact H |].
      exfalso. apply (Hnone t Ht). exact H. }
    pose proof (GateMore.total_held_zero _ Hzero) as Htotal.
    apply GateMore.forallb_false_elem in Hfin as (t & Ht & Hpend).
    apply list_elem_of_lookup in Ht as [i Hi].
    destruct (Gate.pending t) as [| ev rest] eqn:Hp; [discriminate |].
    assert (Hsome : is_Some (Gate.step i σ)).
    { destruct ev;
        try (apply (GateMore.step_enabled_other i σ t _ rest Hi Hp); discriminate).
      apply (GateMore.step_enabled i σ t _ rest Hi Hp); [reflexivity | lia]. }
    destruct Hsome as [σ' Hs]. exists i, σ'. exact Hs.
Qed.

Lemma gate_no_deadlock_witness :
  let e := Examples.answering Examples.mixed_body in
  let prog :=
    effects_of (call_stability_generate e "a red fox" None 30 7 512 512 1 None "m")
               ∅ [] in
  exists σ,
    Gate.run [0; 1]%nat (Gate.start Examples.cfg [prog; prog; prog]) = Some σ
    /\ exists i σ', Gate.step i σ = Some σ'.
Proof.
  intros e prog.
  destruct (Gate.run [0; 1]%nat (Gate.start Examples.cfg [prog; prog; prog]))
    as [σ |] eqn:Hrun; [| vm_compute in Hrun; discriminate Hrun].
  exists σ. split; [reflexivity |].
  refine (gate_no_deadlock Examples.cfg [prog; prog; prog] _ σ _ _ Hrun _).
  - vm_compute. discriminate.
  - repeat constructor.
  - vm_compute in Hrun. injection Hrun as <-. reflexivity.
Defined.

(** X22. With [MAX_CONCURRENT] set to 0 no request ever reaches the
    service: in every reachable state no task is in flight, and every step
    that a task can take is neither a post nor a semaphore operation (the
    tasks stop at their acquire). *)
Theorem zero_permits_no_request cfg programs schedule σ i t ev rest :
  MAX_CONCURRENT cfg = 0 ->
  Forall (Gate.program cfg) programs ->
  Gate.run schedule (Gate.start cfg programs) = Some σ ->
  Gate.tasks σ !! i = Some t ->
  Gate.pending t = ev :: rest ->
  Gate.in_flight σ = 0
  /\ (is_Some (Gate.step i σ) ->
      is_http_post ev = false /\ is_gate_event ev = false).
Proof.
  intros Hmax Hprogs Hrun Hi Hp.
  destruct (GateMore.reachable_invariant cfg programs schedule σ
              ltac:(lia) Hprogs Hrun) as (Hpos & Hsum & Hok).
  pose proof (GateFacts.task_ok_held _ Hok) as Hheld.
  pose proof (GateMore.total_held_nonneg _ Hheld) as Hnn.
  assert (Hpermits : Gate.permits σ = 0) by lia.
  assert (Htotal : Gate.total_held (Gate.tasks σ) = 0) by lia.
  pose proof (GateMore.held_all_zero _ Hheld Htotal) as Hzero.
  split.
  - unfold Gate.in_flight. rewrite GateFacts.in_flight_total; assumption.
  - intros Hsome.
    assert (Ht : t ∈ Gate.tasks σ) by (apply list_elem_of_lookup; eauto).
    rewrite Forall_forall in Hok, Hzero.
    destruct (Hok t Ht) as [_ Hb]. rewrite (Hzero t Ht), Hp in Hb. simpl in Hb.
    destruct ev; try discriminate; try (split; reflexivity).
    exfalso. unfold Gate.step in Hsome. rewrite Hi in Hsome. simpl in Hsome.
    rewrite Hp, Hpermits in Hsome. simpl in Hsome.
    destruct Hsome as [σ' Hs]. discriminate Hs.
Qed.

Lemma zero_permits_no_request_witness :
  let cfg := {| DEFAULT_MODEL := "m"; MAX_CONCURRENT := 0; USER_COOLDOWN := 10;
                BANNED_KEYWORDS := [] |} in
  let e := Examples.answering Examples.mixed_body in
  let prog := effects_of (slash_resim cfg e Examples.ada Examples.fox) ∅ [] in
  exists σ,
    Gate.run [0]%nat (Gate.start cfg [prog]) = Some σ
    /\ Gate.in_flight σ = 0.
Proof.
  intros cfg e prog.
  destruct (Gate.run [0]%nat (Gate.start cfg [prog])) as [σ |] eqn:Hrun;
    [| vm_compute in Hrun; discriminate Hrun].
  exists σ. split; [reflexivity |].
  refine (proj1 (zero_permits_no_request cfg [prog] [0]%nat σ 0%nat
                   {| Gate.held := 0; Gate.pending := tl prog |}
                   SemAcquire (tl (tl prog)) eq_refl _ Hrun _ _)).
  - repeat constructor.
  - vm_compute in Hrun. injection Hrun as <-. vm_compute. reflexivity.
  - vm_compute. reflexivity.
Defined.

(** ** The embed (lines 167-174) *)








(** ** A run that delivers (lines 237-265) *)



